(** * symbl-go-sdk: the authenticating REST client and the async endpoints

    A shallow embedding of

    - the [symbl] client ([New], [NewWithCreds], [Client.Do]): credential
      validation, token acquisition and the retry / re-authentication loop;
    - the [async] endpoints of [bookmarks.go] and [summaryui.go].

    Go values are modelled as follows.  A [string] is a Rocq [string] (a
    sequence of bytes).  An [int], [int64] or [time.Duration] is a [Z]; the
    one multiplication of the source that can leave the 64-bit range has its
    wrap-around written out.  A Go [error] is an [option error], [None] being
    [nil].  A function returning [(T, error)] with exactly one of the two set
    returns a sum [T + error].

    The packages the sources call but do not contain ([rest], [common],
    [version], [interfaces], Go's [net/http], [net/url], [os], [time] and the
    validator) are an environment [Env]: their constants are fields, and the
    calls that reach outside the process ([rest.Client.Do], [time.Now],
    [os.Getenv]) are oracles over the history of the run. *)

From Stdlib Require Import ZArith List String Ascii Bool Lia.
Import ListNotations.

Open Scope string_scope.
Open Scope list_scope.
Open Scope Z_scope.

(** ** Go's [strings] package: what [GetSummaryUI] uses *)

Module strings.

(** [hasPrefix sep s]: [s] starts with [sep]. *)
Fixpoint hasPrefix (sep s : string) : bool :=
  match sep, s with
  | EmptyString, _ => true
  | String a sep', String b s' => Ascii.eqb a b && hasPrefix sep' s'
  | String _ _, EmptyString => false
  end.

(** [lastIndexFrom i s sep]: the greatest byte offset, counted from [i] at
    the head of [s], at which [sep] occurs in [s]; [-1] when there is
    none. *)
Fixpoint lastIndexFrom (i : Z) (s sep : string) : Z :=
  match s with
  | EmptyString => if hasPrefix sep EmptyString then i else -1
  | String _ s' =>
      let later := lastIndexFrom (i + 1) s' sep in
      if 0 <=? later then later
      else if hasPrefix sep s then i else -1
  end.

(** [strings.LastIndex(s, sep)]. *)
Definition LastIndex (s sep : string) : Z := lastIndexFrom 0 s sep.

(** [len(s)]. *)
Definition len (s : string) : Z := Z.of_nat (String.length s).

(** The slice [s[lo:]], for [0 <= lo <= len(s)]. *)
Definition sliceFrom (s : string) (lo : Z) : string :=
  String.substring (Z.to_nat lo) (String.length s - Z.to_nat lo) s.

(** [strings.IndexByte(s, c) >= 0]: the byte [c] occurs in [s]. *)
Fixpoint hasByte (c : ascii) (s : string) : bool :=
  match s with
  | EmptyString => false
  | String b s' => Ascii.eqb b c || hasByte c s'
  end.

End strings.

(** ** Go's [time] package *)

Module time.

(** A [time.Duration] is an [int64] count of nanoseconds. *)
Definition Duration := Z.

(** An instant, [time.Time], as nanoseconds since the epoch. *)
Definition Time := Z.

(** Two's-complement wrap-around of 64-bit signed arithmetic. *)
Definition wrap64 (z : Z) : Z := (z + 2 ^ 63) mod 2 ^ 64 - 2 ^ 63.

Definition Second : Duration := 1000000000.

(** [a * b] on [time.Duration]. *)
Definition mul (a b : Duration) : Duration := wrap64 (a * b).

(** [t.Add(d)]. *)
Definition Add (t : Time) (d : Duration) : Time := t + d.

End time.

(** ** Go's [unicode/utf8] package: what [encoding/json] uses *)

Module utf8.

(** The value of a byte. *)
Definition byte (a : ascii) : Z := Z.of_N (N_of_ascii a).

Definition between (lo hi b : Z) : bool := (lo <=? b) && (b <=? hi).

(** [locb] and [hicb]: the range of a continuation byte. *)
Definition locb : Z := 128.
Definition hicb : Z := 191.

(** The tables [first] and [acceptRanges]: for a byte that starts an
    encoding of several bytes, the size of the encoding and the range its
    second byte must lie in; [None] for a byte that starts none. *)
Definition lead (s0 : Z) : option (nat * Z * Z) :=
  if between 194 223 s0 then Some (2%nat, locb, hicb)
  else if s0 =? 224 then Some (3%nat, 160, hicb)
  else if between 225 236 s0 then Some (3%nat, locb, hicb)
  else if s0 =? 237 then Some (3%nat, locb, 159)
  else if between 238 239 s0 then Some (3%nat, locb, hicb)
  else if s0 =? 240 then Some (4%nat, 144, hicb)
  else if between 241 243 s0 then Some (4%nat, locb, hicb)
  else if s0 =? 244 then Some (4%nat, locb, 143)
  else None.

(** [utf8.DecodeRuneInString(s)] on a non-empty [s], as far as its size goes:
    the number of bytes of the valid encoding [s] starts with, or [None]
    where Go returns [RuneError] with size 1. *)
Definition runeSize (s : string) : option nat :=
  match s with
  | EmptyString => None
  | String s0 rest =>
      if byte s0 <? 128 then Some 1%nat
      else
        match lead (byte s0), rest with
        | Some (sz, lo, hi), String s1 r1 =>
            if between lo hi (byte s1) then
              if (sz <=? 2)%nat then Some 2%nat
              else
                match r1 with
                | String s2 r2 =>
                    if between locb hicb (byte s2) then
                      if (sz <=? 3)%nat then Some 3%nat
                      else
                        match r2 with
                        | String s3 _ =>
                            if between locb hicb (byte s3) then Some 4%nat
                            else None
                        | EmptyString => None
                        end
                    else None
                | EmptyString => None
                end
            else None
        | _, _ => None
        end
  end.

(** The encoding of U+FFFD, the replacement character: EF BF BD. *)
Definition RuneError : string :=
  String (ascii_of_nat 239)
    (String (ascii_of_nat 191) (String (ascii_of_nat 189) EmptyString)).

(** [utf8.ValidString(s)]: [s] is a sequence of valid encodings. *)
Fixpoint ValidString (s : string) : bool :=
  match s with
  | EmptyString => true
  | String _ rest =>
      match runeSize s, rest with
      | None, _ => false
      | Some 4%nat, String _ (String _ (String _ r3)) => ValidString r3
      | Some 3%nat, String _ (String _ r2) => ValidString r2
      | Some 2%nat, String _ r1 => ValidString r1
      | Some _, _ => ValidString rest
      end
  end.

End utf8.

(** ** JSON documents *)

Module json.

#[warnings="-register-all"] Inductive Value :=
| Str (s : string)
| Num (n : Z)
| Obj (fields : list (string * Value)).

(** The member [k] of an object, if it has one. *)
Fixpoint lookup (k : string) (fields : list (string * Value)) : option Value :=
  match fields with
  | [] => None
  | (k', v) :: rest => if String.eqb k k' then Some v else lookup k rest
  end.

Definition member (k : string) (v : Value) : option Value :=
  match v with
  | Obj fields => lookup k fields
  | _ => None
  end.

(** The string a document holds for the Go string [s] that [json.Marshal]
    encoded: the encoder walks [s] rune by rune and writes U+FFFD for every
    byte at which [utf8.DecodeRuneInString] returns [RuneError] with size 1;
    every other rune is written as itself or as an escape that reads back
    as itself. *)
Fixpoint text (s : string) : string :=
  match s with
  | EmptyString => EmptyString
  | String s0 rest =>
      match utf8.runeSize s, rest with
      | None, _ => (utf8.RuneError ++ text rest)%string
      | Some 4%nat, String s1 (String s2 (String s3 r3)) =>
          String s0 (String s1 (String s2 (String s3 (text r3))))
      | Some 3%nat, String s1 (String s2 r2) =>
          String s0 (String s1 (String s2 (text r2)))
      | Some 2%nat, String s1 r1 => String s0 (String s1 (text r1))
      | Some _, _ => String s0 (text rest)
      end
  end.

End json.

(** ** The request payloads of [interfaces]

    The structs are declared outside these sources; each is kept with the
    fields [GetSummaryUI] sets, [Name] being [TextName], [AudioName] or
    [VideoName]. *)

Module interfaces.

Record TextSummaryRequest := { TextName : string }.

Record AudioSummaryRequest := { AudioName : string; AudioURL : string }.

Record VideoSummaryRequest := { VideoName : string; VideoURL : string }.

End interfaces.

(** ** [net/http] *)

Module http.

Definition StatusOK : Z := 200.
Definition StatusUnauthorized : Z := 401.

(** The body handed to [http.NewRequestWithContext].  [json.Marshal] of the
    credentials is the document it encodes; [json.Marshal] of an
    [interfaces] request,
    whose field tags are declared outside these sources, is kept as the
    value that was marshalled. *)
Inductive Body :=
| NoBody
| JSONBody (doc : json.Value)
| TextSummaryBody (r : interfaces.TextSummaryRequest)
| AudioSummaryBody (r : interfaces.AudioSummaryRequest)
| VideoSummaryBody (r : interfaces.VideoSummaryRequest).

Record Request := { Method : string; URL : string; ReqBody : Body }.

Record Response := { Status : string; StatusCode : Z; Req : Request }.

End http.

(** ** Errors

    The dynamic type of an error value decides every type assertion of the
    sources, so each constructor is one dynamic type (or one sentinel
    value). *)

Inductive error :=
| RestStatusError (Resp : http.Response)
    (** [*rest.StatusError]: the transport's non-2xx outcome *)
| SymblStatusError (Resp : http.Response)
    (** [*symbl.StatusError]: the wrapper the client package declares *)
| ValidationErrors (fields : list string)
    (** [validator.ValidationErrors]: the fields that failed their rule *)
| ClientErrInvalidInput
    (** [common.ErrInvalidInput] of the client package *)
| ErrAuthFailure
    (** [common.ErrAuthFailure] *)
| ErrInvalidInput
    (** [ErrInvalidInput] of the [async] package *)
| ErrInvalidURIExtension
    (** [ErrInvalidURIExtension] of the [async] package *)
| OtherError (msg : string).
    (** any other error: network, serialization, URL syntax *)

(** ** The [rest] transport *)

Module rest.

Record AccessToken := { Token : string; ExpiresOn : time.Time }.

(** A [rest.Client] holds the authorization it attaches to its requests. *)
Record Client := { Authorization : option AccessToken }.

(** [rest.New()]. *)
Definition New : Client := {| Authorization := None |}.

(** [c.SetAuthorization(token)]. *)
Definition SetAuthorization (c : Client) (token : AccessToken) : Client :=
  {| Authorization := Some token |}.

End rest.

(** ** The history of a run *)

(** The static type of the [resBody] pointer given to [rest.Client.Do]. *)
Inductive ResBodyType := IntoAuthResp | IntoResult.

Inductive Event :=
| EvDo (into : ResBodyType) (auth : option rest.AccessToken) (req : http.Request)
    (** one [rest.Client.Do] call: the authorization the client held and the
        request it sent *)
| EvSleep (d : time.Duration).
    (** one [time.Sleep(d)] *)

Definition World := list Event.

(** [authResp]: the decoded answer of the authentication endpoint. *)
Record authResp := { AccessToken : string; ExpiresIn : Z }.

(** ** The environment *)

Record Env := {
  (** the decoded value of an endpoint result struct of [interfaces], and
      the zero value a declared result variable starts with *)
  Result : Type;
  ZeroResult : Result;
  (** [os.Getenv] *)
  Getenv : string -> string;
  (** [time.Now()], read after the given history *)
  Now : World -> time.Time;
  (** [rest.Client.Do] with a [*authResp] result pointer: the error returned
      and what was stored through the pointer, if anything.  The history ends
      with the call itself. *)
  DoAuth : World -> option error * option authResp;
  (** [rest.Client.Do] with an endpoint result pointer. *)
  DoResult : World -> option error * option Result;
  (** [http.NewRequestWithContext(ctx, method, url, body)]: its error. *)
  NewRequestError : string -> string -> option error;
  (** [url.Parse(uri)]: the [Path] of the URL, or the error. *)
  ParsePath : string -> string + error;
  (** [common.AuthURI] *)
  AuthURI : string;
  (** [common.AudioTypeMP3], [common.AudioTypeMpeg], [common.AudioTypeWav] *)
  AudioTypeMP3 : string;
  AudioTypeMpeg : string;
  AudioTypeWav : string;
  (** [version.GetAsyncAPI], [version.GetManagementAPI] and the URI formats *)
  GetAsyncAPI : string -> list string -> string;
  GetManagementAPI : string -> list string -> string;
  SummaryURI : string;
  BookmarksURI : string
}.

(** ** State passing *)

Definition M (A : Type) : Type := World -> A * World.

Definition ret {A} (a : A) : M A := fun w => (a, w).

Definition bind {A B} (m : M A) (k : A -> M B) : M B :=
  fun w => let (a, w') := m w in k a w'.

Notation "x <- m ;; k" := (bind m (fun x => k))
  (at level 61, m at next level, right associativity).
Notation "' p <- m ;; k" := (bind m (fun x => let p := x in k))
  (at level 61, p pattern, m at next level, right associativity).

(** [time.Sleep(d)]. *)
Definition Sleep (d : time.Duration) : M unit :=
  fun w => (tt, w ++ [EvSleep d]).

(** [time.Now()]. *)
Definition time_Now (E : Env) : M time.Time :=
  fun w => (Now E w, w).

(** What a result variable holds after a call that stored [stored] through
    the pointer to it, [old] being what it held before. *)
Definition assign {A} (stored : option A) (old : A) : A :=
  match stored with
  | Some r => r
  | None => old
  end.

(** [c.Do(ctx, req, &resp)] of the transport, for [resp] an [authResp]
    holding [resp0]. *)
Definition rest_DoAuth (E : Env) (c : rest.Client) (req : http.Request)
    (resp0 : authResp) : M (option error * authResp) :=
  fun w =>
    let w' := w ++ [EvDo IntoAuthResp (rest.Authorization c) req] in
    let (err, stored) := DoAuth E w' in
    ((err, assign stored resp0), w').

(** [c.Do(ctx, req, resBody)] of the transport, for [resBody] pointing to an
    endpoint result holding [res0]. *)
Definition rest_Do (E : Env) (c : rest.Client) (req : http.Request)
    (res0 : Result E) : M (option error * Result E) :=
  fun w =>
    let w' := w ++ [EvDo IntoResult (rest.Authorization c) req] in
    let (err, stored) := DoResult E w' in
    ((err, assign stored res0), w').

(** ** The validator's [required] rule *)

Module validator.

(** [required] on a string field fails on the zero value, the empty
    string.  The result lists the field if it fails. *)
Definition required (field value : string) : list string :=
  if String.eqb value EmptyString then [field] else [].

End validator.

(** ** The [symbl] client *)

Module symbl.

Definition defaultAuthType : string := "application".
Definition defaultAuthTimeout : Z := 5.

Definition defaultAttemptsToReauth : Z := 3.
Definition defaultDelayBetweenReauth : Z := 2.

(** [(e *StatusError) Error()]. *)
Definition StatusError_Error (Resp : http.Response) : string :=
  (http.Method (http.Req Resp) ++ " " ++ http.URL (http.Req Resp) ++ ": "
     ++ http.Status Resp)%string.

(** Credentials is the input needed to login to the Symbl.ai platform.
    [Type_] is the field [Type]. *)
Record Credentials := {
  Type_ : string;
  AppId : string;
  AppSecret : string
}.

(** The client: the embedded [*rest.Client] and the credentials kept for
    re-authentication. *)
Record Client := {
  restClient : rest.Client;
  creds : Credentials
}.

(** [validator.New().Struct(creds)]: [AppId] and [AppSecret] are
    [required]. *)
Definition Struct (creds : Credentials) : option error :=
  match validator.required "AppId" (AppId creds)
        ++ validator.required "AppSecret" (AppSecret creds) with
  | [] => None
  | failed => Some (ValidationErrors failed)
  end.

(** [json.Marshal(creds)], by the field tags of [Credentials]: each field
    as the encoder writes a Go string.  Its error is [nil] for a struct of
    three strings. *)
Definition Marshal (creds : Credentials) : json.Value :=
  json.Obj [ ("type", json.Str (json.text (Type_ creds)));
             ("appId", json.Str (json.text (AppId creds)));
             ("appSecret", json.Str (json.text (AppSecret creds))) ].

(** An empty [creds.Type] becomes [defaultAuthType], on the copy of the
    credentials [NewWithCreds] received. *)
Definition withDefaultType (creds : Credentials) : Credentials :=
  if String.eqb (Type_ creds) EmptyString
  then {| Type_ := defaultAuthType;
          AppId := AppId creds;
          AppSecret := AppSecret creds |}
  else creds.

(** The request [NewWithCreds] builds. *)
Definition authRequest (E : Env) (creds : Credentials) : http.Request :=
  {| http.Method := "POST";
     http.URL := AuthURI E;
     http.ReqBody := http.JSONBody (Marshal creds) |}.

(** [NewWithCreds(ctx, creds)]. *)
Definition NewWithCreds (E : Env) (creds : Credentials) : M (Client + error) :=
  (* validate input *)
  match Struct creds with
  | Some err => ret (inr err)
  | None =>
      let creds := withDefaultType creds in
      (* let's auth *)
      match NewRequestError E "POST" (AuthURI E) with
      | Some err => ret (inr err)
      | None =>
          let req := authRequest E creds in
          (* do it! *)
          let restClient := rest.New in
          '(err, resp) <- rest_DoAuth E restClient req
                            {| AccessToken := EmptyString; ExpiresIn := 0 |} ;;
          match err with
          | Some e => ret (inr e)
          | None =>
              if String.eqb (AccessToken resp) EmptyString then ret (inr ErrAuthFailure)
              else
                now <- time_Now E ;;
                let restClient :=
                  rest.SetAuthorization restClient
                    {| rest.Token := AccessToken resp;
                       rest.ExpiresOn :=
                         time.Add now (time.mul time.Second (ExpiresIn resp)) |} in
                ret (inl {| restClient := restClient; creds := creds |})
          end
      end
  end.

(** [New(ctx)]: the credentials come from [APP_ID] and [APP_SECRET]. *)
Definition New (E : Env) : M (Client + error) :=
  let v := Getenv E "APP_ID" in
  if negb (String.eqb v EmptyString) then
    let appId := v in
    let v := Getenv E "APP_SECRET" in
    if negb (String.eqb v EmptyString) then
      let appSecret := v in
      NewWithCreds E {| Type_ := EmptyString; AppId := appId; AppSecret := appSecret |}
    else ret (inr ClientErrInvalidInput)
  else ret (inr ClientErrInvalidInput).

(** The loop of [Do] from iteration [i] on, with [remaining] iterations
    left before [i <= defaultAttemptsToReauth] fails; [err] and [res] are
    the current values of [err] and of [*resBody].  The result is the
    client as [Do] leaves it, the final [*resBody] and the error [Do]
    returns. *)
Fixpoint Do_from (E : Env) (remaining : nat) (i : Z) (c : Client)
    (req : http.Request) (err : option error) (res : Result E)
    : M (Client * Result E * option error) :=
  match remaining with
  | O => ret (c, res, err)
  | S remaining' =>
      (* delay on subsequent calls *)
      _ <- (if 1 <? i
            then Sleep (time.mul time.Second defaultDelayBetweenReauth)
            else ret tt) ;;
      (* run request *)
      '(err, res) <- rest_Do E (restClient c) req res ;;
      match err with
      | Some (RestStatusError e) =>
          if http.StatusCode e =? http.StatusUnauthorized then
            r <- NewWithCreds E (creds c) ;;
            match r with
            | inr reauthErr => ret (c, res, Some reauthErr)
            | inl newClient =>
                let c := {| restClient := restClient newClient;
                            creds := creds c |} in
                Do_from E remaining' (i + 1) c req err res
            end
          else Do_from E remaining' (i + 1) c req err res
      | _ => ret (c, res, err)
      end
  end.

(** [(c *Client) Do(ctx, req, resBody)], [res] being what [resBody] points
    to on entry. *)
Definition Do (E : Env) (c : Client) (req : http.Request) (res : Result E)
    : M (Client * Result E * option error) :=
  Do_from E (Z.to_nat defaultAttemptsToReauth) 1 c req None res.

End symbl.

(** ** The environment of the other bookmark endpoints

    What [bookmarks.go] uses beyond [Env]: the URI formats of [version],
    [url.QueryEscape], and the [interfaces.BookmarkRequest] struct with the
    two library calls that depend on its declaration. *)

Record BookmarksEnv := {
  (** [version.BookmarksByIdURI], [version.BookmarkSummaryURI],
      [version.SummariesOfBookmarksURI] *)
  BookmarksByIdURI : string;
  BookmarkSummaryURI : string;
  SummariesOfBookmarksURI : string;
  (** [url.QueryEscape] *)
  QueryEscape : string -> string;
  (** [interfaces.BookmarkRequest] *)
  BookmarkRequest : Type;
  (** [validator.New().Struct(request)] on a [BookmarkRequest] *)
  StructBookmarkRequest : BookmarkRequest -> option error;
  (** [json.Marshal(request)] on a [BookmarkRequest] *)
  MarshalBookmarkRequest : BookmarkRequest -> json.Value + error
}.

(** ** The [async] endpoints *)

Module async.

(** The endpoints reach the network through [c.Client.Do], the [Do] of the
    [symbl] client their receiver embeds; they return the client as [Do]
    leaves it next to their Go result. *)
Definition Reply (E : Env) : Type := symbl.Client * (Result E + error).

(** The part every endpoint ends with: run the request, check the status,
    return [&result, nil] otherwise. *)
Definition checkTheStatus (E : Env) (c : symbl.Client) (req : http.Request)
    : M (Reply E) :=
  (* var result ...; err = c.Client.Do(ctx, req, &result) *)
  '(c, result, err) <- symbl.Do E c req (ZeroResult E) ;;
  match err with
  | Some (SymblStatusError e) =>
      (* e, ok := err.( *symbl.StatusError ); ok *)
      if negb (http.StatusCode e =? http.StatusOK)
      then ret (c, inr (SymblStatusError e))
      else ret (c, inl result)
  | _ => ret (c, inl result)
  end.

(** [GetBookmarks(ctx, conversationId)]. *)
Definition GetBookmarks (E : Env) (c : symbl.Client) (conversationId : string)
    : M (Reply E) :=
  if String.eqb conversationId EmptyString then ret (c, inr ErrInvalidInput)
  else
    let URI := GetManagementAPI E (BookmarksURI E) [conversationId] in
    match NewRequestError E "GET" URI with
    | Some err => ret (c, inr err)
    | None =>
        checkTheStatus E c
          {| http.Method := "GET"; http.URL := URI; http.ReqBody := http.NoBody |}
    end.

(** The three summary endpoints differ in the request they marshal. *)
Definition postSummary (E : Env) (c : symbl.Client) (conversationId : string)
    (body : http.Body) : M (Reply E) :=
  if String.eqb conversationId EmptyString then ret (c, inr ErrInvalidInput)
  else
    let URI := GetAsyncAPI E (SummaryURI E) [conversationId] in
    match NewRequestError E "POST" URI with
    | Some err => ret (c, inr err)
    | None =>
        checkTheStatus E c
          {| http.Method := "POST"; http.URL := URI; http.ReqBody := body |}
    end.

(** [GetTextSummaryUI(ctx, conversationId, request)]. *)
Definition GetTextSummaryUI (E : Env) (c : symbl.Client) (conversationId : string)
    (request : interfaces.TextSummaryRequest) : M (Reply E) :=
  postSummary E c conversationId (http.TextSummaryBody request).

(** [GetAudioSummaryUI(ctx, conversationId, request)]. *)
Definition GetAudioSummaryUI (E : Env) (c : symbl.Client) (conversationId : string)
    (request : interfaces.AudioSummaryRequest) : M (Reply E) :=
  postSummary E c conversationId (http.AudioSummaryBody request).

(** [GetVideoSummaryUI(ctx, conversationId, request)]. *)
Definition GetVideoSummaryUI (E : Env) (c : symbl.Client) (conversationId : string)
    (request : interfaces.VideoSummaryRequest) : M (Reply E) :=
  postSummary E c conversationId (http.VideoSummaryBody request).

(** [GetSummaryUI(ctx, conversationId, uri)].  A Go [switch] runs the body
    of the first case that matches and then leaves the switch: the cases
    of [AudioTypeMP3] and [AudioTypeMpeg] have no statements, so control
    goes on to the video request below the switch. *)
Definition GetSummaryUI (E : Env) (c : symbl.Client) (conversationId uri : string)
    : M (Reply E) :=
  if String.eqb conversationId EmptyString then ret (c, inr ErrInvalidInput)
  else if strings.len uri =? 0 then
    (* text *)
    GetTextSummaryUI E c conversationId
      {| interfaces.TextName := "verbose-text-summary" |}
  else
    (* url *)
    match ParsePath E uri with
    | inr err => ret (c, inr err)
    | inl Path =>
        let pos := strings.LastIndex Path "." in
        if pos =? -1 then ret (c, inr ErrInvalidURIExtension)
        else
          let extension := strings.sliceFrom Path (pos + 1) in
          (* assume video *)
          let video :=
            GetVideoSummaryUI E c conversationId
              {| interfaces.VideoName := "video-summary";
                 interfaces.VideoURL := uri |} in
          (* is audio? *)
          if String.eqb extension (AudioTypeMP3 E) then video
          else if String.eqb extension (AudioTypeMpeg E) then video
          else if String.eqb extension (AudioTypeWav E) then
            GetAudioSummaryUI E c conversationId
              {| interfaces.AudioName := "audio-summary";
                 interfaces.AudioURL := uri |}
          else video
    end.

(** [GetBookmarkById(ctx, conversationId, bookmarkId)]. *)
Definition GetBookmarkById (E : Env) (B : BookmarksEnv) (c : symbl.Client)
    (conversationId bookmarkId : string) : M (Reply E) :=
  if String.eqb conversationId EmptyString then ret (c, inr ErrInvalidInput)
  else if String.eqb bookmarkId EmptyString then ret (c, inr ErrInvalidInput)
  else
    let URI :=
      GetManagementAPI E (BookmarksByIdURI B) [conversationId; bookmarkId] in
    match NewRequestError E "GET" URI with
    | Some err => ret (c, inr err)
    | None =>
        checkTheStatus E c
          {| http.Method := "GET"; http.URL := URI; http.ReqBody := http.NoBody |}
    end.

(** [CreateBookmark(ctx, conversationId, request)]. *)
Definition CreateBookmark (E : Env) (B : BookmarksEnv) (c : symbl.Client)
    (conversationId : string) (request : BookmarkRequest B) : M (Reply E) :=
  (* validate input *)
  match StructBookmarkRequest B request with
  | Some err => ret (c, inr err)
  | None =>
      if String.eqb conversationId EmptyString then ret (c, inr ErrInvalidInput)
      else
        let URI := GetManagementAPI E (BookmarksURI E) [conversationId] in
        match MarshalBookmarkRequest B request with
        | inr err => ret (c, inr err)
        | inl jsonStr =>
            match NewRequestError E "POST" URI with
            | Some err => ret (c, inr err)
            | None =>
                checkTheStatus E c
                  {| http.Method := "POST"; http.URL := URI;
                     http.ReqBody := http.JSONBody jsonStr |}
            end
        end
  end.

(** [UpdateBookmark(ctx, conversationId, bookmarkId, request)]. *)
Definition UpdateBookmark (E : Env) (B : BookmarksEnv) (c : symbl.Client)
    (conversationId bookmarkId : string) (request : BookmarkRequest B)
    : M (Reply E) :=
  (* validate input *)
  match StructBookmarkRequest B request with
  | Some err => ret (c, inr err)
  | None =>
      if String.eqb conversationId EmptyString then ret (c, inr ErrInvalidInput)
      else if String.eqb bookmarkId EmptyString then ret (c, inr ErrInvalidInput)
      else
        let URI :=
          GetManagementAPI E (BookmarksByIdURI B) [conversationId; bookmarkId] in
        match MarshalBookmarkRequest B request with
        | inr err => ret (c, inr err)
        | inl jsonStr =>
            match NewRequestError E "PUT" URI with
            | Some err => ret (c, inr err)
            | None =>
                checkTheStatus E c
                  {| http.Method := "PUT"; http.URL := URI;
                     http.ReqBody := http.JSONBody jsonStr |}
            end
        end
  end.

(** [GetSummaryOfBookmark(ctx, conversationId, bookmarkId)]. *)
Definition GetSummaryOfBookmark (E : Env) (B : BookmarksEnv) (c : symbl.Client)
    (conversationId bookmarkId : string) : M (Reply E) :=
  if String.eqb conversationId EmptyString then ret (c, inr ErrInvalidInput)
  else if String.eqb bookmarkId EmptyString then ret (c, inr ErrInvalidInput)
  else
    let URI :=
      GetAsyncAPI E (BookmarkSummaryURI B) [conversationId; bookmarkId] in
    match NewRequestError E "GET" URI with
    | Some err => ret (c, inr err)
    | None =>
        checkTheStatus E c
          {| http.Method := "GET"; http.URL := URI; http.ReqBody := http.NoBody |}
    end.

(** The query string [GetSummaryOfBookmarks] builds: empty without filters;
    otherwise a question mark to which the loop appends each escaped filter
    in turn. *)
Definition queryString (B : BookmarksEnv) (filters : list string) : string :=
  if 0 <? Z.of_nat (List.length filters)
  then fold_left (fun q filter => (q ++ QueryEscape B filter)%string) filters "?"
  else EmptyString.

(** [GetSummaryOfBookmarks(ctx, conversationId, filters)]. *)
Definition GetSummaryOfBookmarks (E : Env) (B : BookmarksEnv)
    (c : symbl.Client) (conversationId : string) (filters : list string)
    : M (Reply E) :=
  if String.eqb conversationId EmptyString then ret (c, inr ErrInvalidInput)
  else
    let URI :=
      if 0 <? Z.of_nat (List.length filters)
      then GetAsyncAPI E (SummariesOfBookmarksURI B)
             [conversationId; queryString B filters]
      else GetAsyncAPI E (SummariesOfBookmarksURI B) [conversationId] in
    match NewRequestError E "GET" URI with
    | Some err => ret (c, inr err)
    | None =>
        checkTheStatus E c
          {| http.Method := "GET"; http.URL := URI; http.ReqBody := http.NoBody |}
    end.

End async.

(** ** Reading a history *)

Definition isAttempt (ev : Event) : bool :=
  match ev with
  | EvDo IntoResult _ _ => true
  | _ => false
  end.

Definition isAuthentication (ev : Event) : bool :=
  match ev with
  | EvDo IntoAuthResp _ _ => true
  | _ => false
  end.

(** The number of requests [Do] and the endpoints have sent. *)
Definition attempts (w : World) : nat := List.length (filter isAttempt w).

(** The number of requests sent to the authentication endpoint. *)
Definition authentications (w : World) : nat :=
  List.length (filter isAuthentication w).

(** The delay of [Do] between two attempts. *)
Definition RetryDelay : time.Duration := 2 * time.Second.

(** The history when iteration [i] of [Do] issues its request: later
    iterations have slept first. *)
Definition issued (req : http.Request) (i : Z) (c : symbl.Client) (w : World)
    : World :=
  (if 1 <? i then w ++ [EvSleep RetryDelay] else w)
    ++ [EvDo IntoResult (rest.Authorization (symbl.restClient c)) req].

Definition isSleep (ev : Event) : bool :=
  match ev with
  | EvSleep _ => true
  | _ => false
  end.

(** The number of times the run has slept. *)
Definition sleeps (w : World) : nat := List.length (filter isSleep w).

(** What [Do] may add to a history, for the request [req] and a client
    holding the credentials [creds]: an attempt of [req], with whatever
    authorization the client holds at that time; the authentication request
    for [creds], without authorization; a sleep of [RetryDelay]. *)
Definition DoEvent (E : Env) (creds : symbl.Credentials) (req : http.Request)
    (ev : Event) : Prop :=
  match ev with
  | EvDo IntoResult _ r => r = req
  | EvDo IntoAuthResp auth r =>
      auth = None /\ r = symbl.authRequest E (symbl.withDefaultType creds)
  | EvSleep d => d = RetryDelay
  end.

(** ** A scripted environment

    A server that answers the k-th authentication request and the k-th
    endpoint request by the k-th entry of a script and refuses the connection
    when its script is over; a clock that starts at [start] and advances by
    the time slept and by [latency] per request.  The URIs given to
    [url.Parse] are absolute paths, which are their own [Path]. *)

Module mock.

Definition refused {A} : option error * option A :=
  (Some (OtherError "connection refused"), None).

Fixpoint elapsed (latency : Z) (w : World) : Z :=
  match w with
  | [] => 0
  | EvDo _ _ _ :: w' => latency + elapsed latency w'
  | EvSleep d :: w' => d + elapsed latency w'
  end.

Fixpoint getenv (vars : list (string * string)) (name : string) : string :=
  match vars with
  | [] => EmptyString
  | (k, v) :: vars' => if String.eqb name k then v else getenv vars' name
  end.

Definition start : time.Time := 1667260800 * time.Second.

Definition env (vars : list (string * string))
    (auth : list (option error * option authResp))
    (api : list (option error * option json.Value)) : Env :=
  {| Result := json.Value;
     ZeroResult := json.Obj [];
     Getenv := getenv vars;
     Now := fun w => start + elapsed 50000000 w;
     DoAuth := fun w => nth (authentications w - 1) auth refused;
     DoResult := fun w => nth (attempts w - 1) api refused;
     NewRequestError := fun _ _ => None;
     ParsePath := fun uri => inl uri;
     AuthURI := "https://api.symbl.ai/oauth2/token:generate";
     AudioTypeMP3 := "mp3";
     AudioTypeMpeg := "mpeg";
     AudioTypeWav := "wav";
     GetAsyncAPI := fun format args => String.concat "/" (format :: args);
     GetManagementAPI := fun format args => String.concat "/" (format :: args);
     SummaryURI := "https://api.symbl.ai/v1/conversations/experiences";
     BookmarksURI := "https://api.symbl.ai/v1/conversations/bookmarks" |}.

Definition creds : symbl.Credentials :=
  {| symbl.Type_ := EmptyString; symbl.AppId := "id"; symbl.AppSecret := "secret" |}.

(** A session whose token the server no longer accepts. *)
Definition client : symbl.Client :=
  {| symbl.restClient :=
       {| rest.Authorization :=
            Some {| rest.Token := "old"; rest.ExpiresOn := start |} |};
     symbl.creds :=
       {| symbl.Type_ := "application";
          symbl.AppId := "id";
          symbl.AppSecret := "secret" |} |}.

Definition request : http.Request :=
  {| http.Method := "GET";
     http.URL := "https://api.symbl.ai/v1/conversations/42/topics";
     http.ReqBody := http.NoBody |}.

Definition status (code : Z) (text : string) : error :=
  RestStatusError
    {| http.Status := text; http.StatusCode := code; http.Req := request |}.

Definition granted (token : string) (seconds : Z)
    : option error * option authResp :=
  (None, Some {| AccessToken := token; ExpiresIn := seconds |}).

(** Bookmark requests are their description; an empty one fails the
    validator.  The filters of the examples need no escaping. *)
Definition bookmarks : BookmarksEnv :=
  {| BookmarksByIdURI := "https://api.symbl.ai/v1/conversations/bookmarks/id";
     BookmarkSummaryURI := "https://api.symbl.ai/v1/conversations/bookmarks/summary";
     SummariesOfBookmarksURI :=
       "https://api.symbl.ai/v1/conversations/bookmarks-summary";
     QueryEscape := fun filter => filter;
     BookmarkRequest := string;
     StructBookmarkRequest := fun description =>
       match validator.required "Description" description with
       | [] => None
       | failed => Some (ValidationErrors failed)
       end;
     MarshalBookmarkRequest := fun description =>
       inl (json.Obj [("description", json.Str description)]) |}.

End mock.

(** * Properties *)

(** ** Histories *)

Lemma attempts_app (w w' : World) :
  attempts (w ++ w') = (attempts w + attempts w')%nat.
Proof.
  unfold attempts. rewrite filter_app, length_app. reflexivity.
Qed.

Lemma authentications_app (w w' : World) :
  authentications (w ++ w') = (authentications w + authentications w')%nat.
Proof.
  unfold authentications. rewrite filter_app, length_app. reflexivity.
Qed.

(** ** [NewWithCreds], case by case *)

Section NewWithCredsCases.

Variable E : Env.
Variable creds : symbl.Credentials.
Variable w : World.

(** The history once the authentication request has been sent. *)
Let sent : World :=
  w ++ [EvDo IntoAuthResp None (symbl.authRequest E (symbl.withDefaultType creds))].

Lemma NewWithCreds_invalid (failed : error) :
  symbl.Struct creds = Some failed ->
  symbl.NewWithCreds E creds w = (inr failed, w).
Proof.
  intros Hv. unfold symbl.NewWithCreds. rewrite Hv. reflexivity.
Qed.

Lemma NewWithCreds_no_request (err : error) :
  symbl.Struct creds = None ->
  NewRequestError E "POST" (AuthURI E) = Some err ->
  symbl.NewWithCreds E creds w = (inr err, w).
Proof.
  intros Hv Hr. unfold symbl.NewWithCreds. rewrite Hv, Hr. reflexivity.
Qed.

Hypothesis valid : symbl.Struct creds = None.
Hypothesis request_ok : NewRequestError E "POST" (AuthURI E) = None.

Lemma NewWithCreds_transport_error (err : error) (stored : option authResp) :
  DoAuth E sent = (Some err, stored) ->
  symbl.NewWithCreds E creds w = (inr err, sent).
Proof.
  intros Hd. unfold symbl.NewWithCreds, bind, rest_DoAuth.
  rewrite valid, request_ok. cbn [rest.Authorization rest.New].
  fold sent. rewrite Hd. reflexivity.
Qed.

Lemma NewWithCreds_empty_token (stored : option authResp) :
  DoAuth E sent = (None, stored) ->
  AccessToken (assign stored {| AccessToken := EmptyString; ExpiresIn := 0 |})
    = EmptyString ->
  symbl.NewWithCreds E creds w = (inr ErrAuthFailure, sent).
Proof.
  intros Hd Ht. unfold symbl.NewWithCreds, bind, rest_DoAuth.
  rewrite valid, request_ok. cbn [rest.Authorization rest.New].
  fold sent. rewrite Hd, Ht. reflexivity.
Qed.

Lemma NewWithCreds_token (resp : authResp) :
  DoAuth E sent = (None, Some resp) ->
  AccessToken resp <> EmptyString ->
  symbl.NewWithCreds E creds w =
    (inl {| symbl.restClient :=
              {| rest.Authorization :=
                   Some {| rest.Token := AccessToken resp;
                           rest.ExpiresOn :=
                             time.Add (Now E sent)
                               (time.mul time.Second (ExpiresIn resp)) |} |};
            symbl.creds := symbl.withDefaultType creds |},
     sent).
Proof.
  intros Hd Ht. unfold symbl.NewWithCreds, bind, rest_DoAuth.
  rewrite valid, request_ok. cbn [rest.Authorization rest.New].
  fold sent. rewrite Hd. cbn [assign].
  destruct (String.eqb_spec (AccessToken resp) EmptyString) as [Heq | _].
  - contradiction.
  - reflexivity.
Qed.

End NewWithCredsCases.

(** [NewWithCreds] sends at most the one authentication request, and nothing
    else happens during it. *)
Lemma NewWithCreds_history (E : Env) (creds : symbl.Credentials) (w : World) :
  snd (symbl.NewWithCreds E creds w) = w \/
  snd (symbl.NewWithCreds E creds w)
    = w ++ [EvDo IntoAuthResp None
              (symbl.authRequest E (symbl.withDefaultType creds))].
Proof.
  unfold symbl.NewWithCreds, bind, rest_DoAuth, time_Now, ret.
  destruct (symbl.Struct creds); [left; reflexivity|].
  destruct (NewRequestError E "POST" (AuthURI E)); [left; reflexivity|].
  right. cbn [rest.Authorization rest.New].
  destruct (DoAuth E _) as [[err|] stored]; [reflexivity|].
  destruct (String.eqb _ _); reflexivity.
Qed.

(** ** One iteration of the loop of [Do] *)

Lemma RetryDelay_eq :
  time.mul time.Second symbl.defaultDelayBetweenReauth = RetryDelay.
Proof. reflexivity. Qed.

Section DoIteration.

Variable E : Env.
Variable req : http.Request.

Lemma Do_from_done i c err res w :
  symbl.Do_from E 0 i c req err res w = ((c, res, err), w).
Proof. reflexivity. Qed.

(** The attempt ends [Do]: no error, or an error that is not a
    [*rest.StatusError]. *)
Lemma Do_from_return k i c err0 res w err stored :
  DoResult E (issued req i c w) = (err, stored) ->
  (forall Resp, err <> Some (RestStatusError Resp)) ->
  symbl.Do_from E (S k) i c req err0 res w
    = ((c, assign stored res, err), issued req i c w).
Proof.
  intros Hd Hn. cbn [symbl.Do_from]. rewrite RetryDelay_eq.
  unfold bind, rest_Do, issued in *.
  destruct (1 <? i); cbn [Sleep ret]; rewrite Hd;
    (destruct err as [[]|]; try reflexivity; exfalso; eapply Hn; reflexivity).
Qed.

(** A status other than 401: the next iteration, same client. *)
Lemma Do_from_retry k i c err0 res w Resp stored :
  DoResult E (issued req i c w) = (Some (RestStatusError Resp), stored) ->
  http.StatusCode Resp <> http.StatusUnauthorized ->
  symbl.Do_from E (S k) i c req err0 res w
    = symbl.Do_from E k (i + 1) c req (Some (RestStatusError Resp))
        (assign stored res) (issued req i c w).
Proof.
  intros Hd Hs. cbn [symbl.Do_from]. rewrite RetryDelay_eq.
  unfold bind, rest_Do, issued in *.
  apply Z.eqb_neq in Hs.
  destruct (1 <? i); cbn [Sleep ret]; rewrite Hd, Hs; reflexivity.
Qed.

(** 401 and the re-authentication fails: its error is returned. *)
Lemma Do_from_reauth_fails k i c err0 res w Resp stored reauthErr w' :
  DoResult E (issued req i c w) = (Some (RestStatusError Resp), stored) ->
  http.StatusCode Resp = http.StatusUnauthorized ->
  symbl.NewWithCreds E (symbl.creds c) (issued req i c w) = (inr reauthErr, w') ->
  symbl.Do_from E (S k) i c req err0 res w
    = ((c, assign stored res, Some reauthErr), w').
Proof.
  intros Hd Hs Hn. cbn [symbl.Do_from]. rewrite RetryDelay_eq.
  unfold bind, rest_Do, issued in *.
  apply Z.eqb_eq in Hs.
  destruct (1 <? i); cbn [Sleep ret]; rewrite Hd, Hs, Hn; reflexivity.
Qed.

(** 401 and the re-authentication succeeds: the next iteration, with the
    transport of the new client. *)
Lemma Do_from_reauth k i c err0 res w Resp stored newClient w' :
  DoResult E (issued req i c w) = (Some (RestStatusError Resp), stored) ->
  http.StatusCode Resp = http.StatusUnauthorized ->
  symbl.NewWithCreds E (symbl.creds c) (issued req i c w) = (inl newClient, w') ->
  symbl.Do_from E (S k) i c req err0 res w
    = symbl.Do_from E k (i + 1)
        {| symbl.restClient := symbl.restClient newClient;
           symbl.creds := symbl.creds c |}
        req (Some (RestStatusError Resp)) (assign stored res) w'.
Proof.
  intros Hd Hs Hn. cbn [symbl.Do_from]. rewrite RetryDelay_eq.
  unfold bind, rest_Do, issued in *.
  apply Z.eqb_eq in Hs.
  destruct (1 <? i); cbn [Sleep ret]; rewrite Hd, Hs, Hn; reflexivity.
Qed.

End DoIteration.

Lemma issued_first req c w :
  issued req 1 c w
    = w ++ [EvDo IntoResult (rest.Authorization (symbl.restClient c)) req].
Proof. reflexivity. Qed.

Lemma issued_later req i c w :
  1 < i ->
  issued req i c w
    = w ++ [EvSleep RetryDelay;
            EvDo IntoResult (rest.Authorization (symbl.restClient c)) req].
Proof.
  intros Hi. unfold issued. apply Z.ltb_lt in Hi. rewrite Hi.
  rewrite <- app_assoc. reflexivity.
Qed.

(** A successful [NewWithCreds] has sent exactly the authentication request
    and returns a client that holds a token. *)
Lemma NewWithCreds_inl E creds w newClient w' :
  symbl.NewWithCreds E creds w = (inl newClient, w') ->
  w' = w ++ [EvDo IntoAuthResp None
               (symbl.authRequest E (symbl.withDefaultType creds))]
  /\ exists token, rest.Authorization (symbl.restClient newClient) = Some token.
Proof.
  unfold symbl.NewWithCreds, bind, rest_DoAuth, time_Now, ret.
  destruct (symbl.Struct creds); [discriminate|].
  destruct (NewRequestError E "POST" (AuthURI E)); [discriminate|].
  cbn [rest.Authorization rest.New].
  destruct (DoAuth E _) as [[err|] stored]; [discriminate|].
  destruct (String.eqb _ _); [discriminate|].
  intros H. injection H as Hc Hw. subst. split; [reflexivity|].
  eexists. reflexivity.
Qed.

(** ** The dispatcher [Do] *)



(** C2.  All three attempts of [Do] are answered by a [*rest.StatusError]
    whose status is not 401.  Then [Do] sends the same request
    [defaultAttemptsToReauth] = 3 times with the same client, sleeps
    [RetryDelay] = 2 s before the second and before the third attempt and
    not before the first, sends no authentication request, and returns the
    third error. *)
Theorem Do_retries_other_statuses
    (E : Env) (c : symbl.Client) (req : http.Request) (res : Result E)
    (w : World) (R1 R2 R3 : http.Response) (s1 s2 s3 : option (Result E)) :
  let attempt :=
    EvDo IntoResult (rest.Authorization (symbl.restClient c)) req in
  let w1 := w ++ [attempt] in
  let w2 := w ++ [attempt; EvSleep RetryDelay; attempt] in
  let w3 :=
    w ++ [attempt; EvSleep RetryDelay; attempt; EvSleep RetryDelay; attempt] in
  DoResult E w1 = (Some (RestStatusError R1), s1) ->
  http.StatusCode R1 <> http.StatusUnauthorized ->
  DoResult E w2 = (Some (RestStatusError R2), s2) ->
  http.StatusCode R2 <> http.StatusUnauthorized ->
  DoResult E w3 = (Some (RestStatusError R3), s3) ->
  http.StatusCode R3 <> http.StatusUnauthorized ->
  symbl.Do E c req res w
    = ((c, assign s3 (assign s2 (assign s1 res)), Some (RestStatusError R3)),
       w3)
  /\ symbl.defaultAttemptsToReauth = 3
  /\ RetryDelay = 2 * 1000000000
  /\ attempts w3 = (attempts w + 3)%nat
  /\ authentications w3 = authentications w.
Proof.
  intros attempt w1 w2 w3 H1 N1 H2 N2 H3 N3.
  assert (E2 : w2 = issued req 2 c w1).
  { rewrite issued_later by lia. unfold w1, w2. rewrite <- app_assoc.
    reflexivity. }
  assert (E3 : w3 = issued req 3 c w2).
  { rewrite issued_later by lia. unfold w2, w3. rewrite <- app_assoc.
    reflexivity. }
  repeat split.
  - unfold symbl.Do. change (Z.to_nat symbl.defaultAttemptsToReauth) with 3%nat.
    change w1 with (issued req 1 c w) in H1, E2.
    rewrite (Do_from_retry E req _ _ _ _ _ _ _ _ H1 N1).
    change (1 + 1) with 2. fold w1 in E2.
    change (issued req 1 c w) with w1.
    rewrite E2 in H2.
    rewrite (Do_from_retry E req _ _ _ _ _ _ _ _ H2 N2).
    change (2 + 1) with 3. rewrite <- E2.
    rewrite E3 in H3.
    rewrite (Do_from_retry E req _ _ _ _ _ _ _ _ H3 N3).
    rewrite <- E3. apply Do_from_done.
  - unfold w3. rewrite attempts_app. reflexivity.
  - unfold w3. rewrite authentications_app. cbn. lia.
Qed.

(** C2, on the scripted server: 500, 500, 503. *)
Lemma Do_retries_other_statuses_witness :
  let E := mock.env [] []
             [(Some (mock.status 500 "500 Internal Server Error"), None);
              (Some (mock.status 500 "500 Internal Server Error"), None);
              (Some (mock.status 503 "503 Service Unavailable"), None)] in
  let attempt :=
    EvDo IntoResult (rest.Authorization (symbl.restClient mock.client))
      mock.request in
  symbl.Do E mock.client mock.request (json.Obj []) []
    = ((mock.client, json.Obj [],
        Some (mock.status 503 "503 Service Unavailable")),
       [attempt; EvSleep RetryDelay; attempt; EvSleep RetryDelay; attempt]).
Proof.
  intros E attempt.
  apply (Do_retries_other_statuses E mock.client mock.request (json.Obj []) []
           {| http.Status := "500 Internal Server Error";
              http.StatusCode := 500; http.Req := mock.request |}
           {| http.Status := "500 Internal Server Error";
              http.StatusCode := 500; http.Req := mock.request |}
           {| http.Status := "503 Service Unavailable";
              http.StatusCode := 503; http.Req := mock.request |}
           None None None);
    solve [reflexivity | vm_compute; discriminate].
Defined.

(** C3.  The first attempt of [Do] is answered by a [*rest.StatusError] of
    status 401 and [NewWithCreds] on the stored credentials fails.  Then [Do]
    returns the error of [NewWithCreds] with the client unchanged; nothing
    happens after [NewWithCreds] returns, so one attempt was made, followed
    by at most the authentication request, without any sleep. *)
Theorem Do_returns_reauthentication_error
    (E : Env) (c : symbl.Client) (req : http.Request) (res : Result E)
    (w : World) (Resp : http.Response) (s1 : option (Result E))
    (reauthErr : error) (w2 : World) :
  let attempt :=
    EvDo IntoResult (rest.Authorization (symbl.restClient c)) req in
  let login :=
    EvDo IntoAuthResp None
      (symbl.authRequest E (symbl.withDefaultType (symbl.creds c))) in
  DoResult E (w ++ [attempt]) = (Some (RestStatusError Resp), s1) ->
  http.StatusCode Resp = http.StatusUnauthorized ->
  symbl.NewWithCreds E (symbl.creds c) (w ++ [attempt]) = (inr reauthErr, w2) ->
  symbl.Do E c req res w = ((c, assign s1 res, Some reauthErr), w2)
  /\ (w2 = w ++ [attempt] \/ w2 = w ++ [attempt; login])
  /\ attempts w2 = (attempts w + 1)%nat.
Proof.
  intros attempt login H1 H401 Hnew.
  assert (Hw2 : w2 = w ++ [attempt] \/ w2 = w ++ [attempt; login]).
  { pose proof (NewWithCreds_history E (symbl.creds c) (w ++ [attempt])) as Hh.
    rewrite Hnew in Hh. cbn [snd] in Hh.
    destruct Hh as [Hh | Hh]; [left; exact Hh|right].
    rewrite Hh, <- app_assoc. reflexivity. }
  repeat split.
  - unfold symbl.Do. change (Z.to_nat symbl.defaultAttemptsToReauth) with 3%nat.
    change (w ++ [attempt]) with (issued req 1 c w) in H1, Hnew.
    apply (Do_from_reauth_fails E req _ _ _ _ _ _ _ _ _ _ H1 H401 Hnew).
  - exact Hw2.
  - destruct Hw2 as [-> | ->]; rewrite attempts_app; reflexivity.
Qed.

(** C3, on the scripted server: 401, then the authentication endpoint
    refuses the connection. *)
Lemma Do_returns_reauthentication_error_witness :
  let E := mock.env [] []
             [(Some (mock.status 401 "401 Unauthorized"), None)] in
  exists w2,
    symbl.Do E mock.client mock.request (json.Obj []) []
      = ((mock.client, json.Obj [], Some (OtherError "connection refused")), w2)
    /\ attempts w2 = 1%nat.
Proof.
  intros E.
  destruct (symbl.NewWithCreds E (symbl.creds mock.client)
              ([] ++ [EvDo IntoResult
                        (rest.Authorization (symbl.restClient mock.client))
                        mock.request]))
    as [[newClient | err] w2] eqn:Hnew; [vm_compute in Hnew; discriminate|].
  assert (Herr : err = OtherError "connection refused").
  { vm_compute in Hnew. injection Hnew as Herr _. symmetry. exact Herr. }
  exists w2.
  destruct (Do_returns_reauthentication_error E mock.client mock.request
              (json.Obj []) []
              {| http.Status := "401 Unauthorized"; http.StatusCode := 401;
                 http.Req := mock.request |}
              None err w2) as (Hdo & _ & Ha).
  - reflexivity.
  - reflexivity.
  - exact Hnew.
  - subst err. split; [exact Hdo | exact Ha].
Defined.

(** C4.  The first attempt of [Do] returns [nil] or an error that is not a
    [*rest.StatusError].  Then [Do] returns that outcome at once, with the
    client unchanged: one attempt, no sleep, no authentication request. *)
Theorem Do_returns_other_outcomes_at_once
    (E : Env) (c : symbl.Client) (req : http.Request) (res : Result E)
    (w : World) (err : option error) (stored : option (Result E)) :
  let attempt :=
    EvDo IntoResult (rest.Authorization (symbl.restClient c)) req in
  DoResult E (w ++ [attempt]) = (err, stored) ->
  (forall Resp, err <> Some (RestStatusError Resp)) ->
  symbl.Do E c req res w = ((c, assign stored res, err), w ++ [attempt])
  /\ attempts (w ++ [attempt]) = (attempts w + 1)%nat
  /\ authentications (w ++ [attempt]) = authentications w.
Proof.
  intros attempt Hd Hn. repeat split.
  - unfold symbl.Do. change (Z.to_nat symbl.defaultAttemptsToReauth) with 3%nat.
    change (w ++ [attempt]) with (issued req 1 c w) in Hd.
    apply (Do_from_return E req _ _ _ _ _ _ _ _ Hd Hn).
  - rewrite attempts_app. reflexivity.
  - rewrite authentications_app. cbn. lia.
Qed.

(** C4, on the scripted server: the connection is refused. *)
Lemma Do_returns_other_outcomes_at_once_witness :
  let E := mock.env [] [] [] in
  let attempt :=
    EvDo IntoResult (rest.Authorization (symbl.restClient mock.client))
      mock.request in
  symbl.Do E mock.client mock.request (json.Obj []) []
    = ((mock.client, json.Obj [], Some (OtherError "connection refused")),
       [attempt]).
Proof.
  intros E attempt.
  apply (Do_returns_other_outcomes_at_once E mock.client mock.request
           (json.Obj []) [] (Some (OtherError "connection refused")) None).
  - reflexivity.
  - intros Resp H. discriminate H.
Defined.

(** ** The endpoints and the errors of [Do] *)

(** The status check of an endpoint looks for a [*symbl.StatusError]: every
    other outcome of [Do], [nil] or not, takes the path that returns
    [&result, nil]. *)
Lemma checkTheStatus_returns_nil E c req w c' result err w' :
  symbl.Do E c req (ZeroResult E) w = ((c', result, err), w') ->
  (forall Resp, err <> Some (SymblStatusError Resp)) ->
  async.checkTheStatus E c req w = ((c', inl result), w').
Proof.
  intros Hdo Hn. unfold async.checkTheStatus, bind. rewrite Hdo.
  destruct err as [[]|]; try reflexivity.
  exfalso. eapply Hn. reflexivity.
Qed.

(** C5.  The transport refuses the connection: [Do] returns that error after
    one attempt, and [GetBookmarks] and [GetTextSummaryUI], which called it,
    return a result and a [nil] error. *)
Theorem endpoints_return_nil_on_transport_error :
  let E := mock.env [] [] [] in
  let auth := rest.Authorization (symbl.restClient mock.client) in
  let bookmarks :=
    {| http.Method := "GET";
       http.URL := GetManagementAPI E (BookmarksURI E) ["42"];
       http.ReqBody := http.NoBody |} in
  let request := {| interfaces.TextName := "verbose-text-summary" |} in
  let summary :=
    {| http.Method := "POST";
       http.URL := GetAsyncAPI E (SummaryURI E) ["42"];
       http.ReqBody := http.TextSummaryBody request |} in
  symbl.Do E mock.client bookmarks (ZeroResult E) []
    = ((mock.client, ZeroResult E, Some (OtherError "connection refused")),
       [EvDo IntoResult auth bookmarks])
  /\ async.GetBookmarks E mock.client "42" []
     = ((mock.client, inl (ZeroResult E)), [EvDo IntoResult auth bookmarks])
  /\ async.GetTextSummaryUI E mock.client "42" request []
     = ((mock.client, inl (ZeroResult E)), [EvDo IntoResult auth summary]).
Proof.
  repeat split.
Qed.

(** ** Authentication *)

(** C6.  The credentials are valid and the authentication request is
    answered without error by a response whose [accessToken] is empty.  Then
    [NewWithCreds] returns [ErrAuthFailure] and no client, having sent that
    one request. *)
Theorem NewWithCreds_empty_access_token
    (E : Env) (creds : symbl.Credentials) (w : World) (expiresIn : Z) :
  let login :=
    EvDo IntoAuthResp None (symbl.authRequest E (symbl.withDefaultType creds)) in
  symbl.Struct creds = None ->
  NewRequestError E "POST" (AuthURI E) = None ->
  DoAuth E (w ++ [login])
    = (None, Some {| AccessToken := EmptyString; ExpiresIn := expiresIn |}) ->
  symbl.NewWithCreds E creds w = (inr ErrAuthFailure, w ++ [login]).
Proof.
  intros login Hv Hr Hd.
  apply (NewWithCreds_empty_token E creds w Hv Hr _ Hd). reflexivity.
Qed.

(** C6, on the scripted server: an empty token that expires in 60 s. *)
Lemma NewWithCreds_empty_access_token_witness :
  let E := mock.env [] [mock.granted EmptyString 60] [] in
  symbl.NewWithCreds E mock.creds []
    = (inr ErrAuthFailure,
       [EvDo IntoAuthResp None
          (symbl.authRequest E (symbl.withDefaultType mock.creds))]).
Proof.
  intros E.
  apply (NewWithCreds_empty_access_token E mock.creds [] 60); reflexivity.
Defined.

(** C7.  Credentials whose [AppId] or [AppSecret] is empty make
    [NewWithCreds] return the validator's errors, and an empty or unset
    [APP_ID] or [APP_SECRET] makes [New] return [common.ErrInvalidInput]; in
    both cases the history is unchanged: no request was sent. *)
Theorem missing_credentials_fail_before_any_request (E : Env) (w : World) :
  (forall creds,
     symbl.AppId creds = EmptyString \/ symbl.AppSecret creds = EmptyString ->
     symbl.NewWithCreds E creds w
       = (inr (ValidationErrors
                 (validator.required "AppId" (symbl.AppId creds)
                    ++ validator.required "AppSecret" (symbl.AppSecret creds))),
          w))
  /\ (Getenv E "APP_ID" = EmptyString \/ Getenv E "APP_SECRET" = EmptyString ->
      symbl.New E w = (inr ClientErrInvalidInput, w)).
Proof.
  split.
  - intros creds Hmissing. apply NewWithCreds_invalid.
    unfold symbl.Struct, validator.required.
    destruct Hmissing as [-> | ->]; cbn [String.eqb app].
    + reflexivity.
    + destruct (String.eqb _ _); reflexivity.
  - intros Hmissing. unfold symbl.New.
    destruct Hmissing as [-> | ->]; cbn [String.eqb negb].
    + reflexivity.
    + destruct (negb _); reflexivity.
Qed.

(** C7, with the secret missing. *)
Lemma missing_credentials_fail_before_any_request_witness :
  let E := mock.env [("APP_ID", "id")] [mock.granted "abc" 60] [] in
  symbl.NewWithCreds E
    {| symbl.Type_ := EmptyString; symbl.AppId := "id";
       symbl.AppSecret := EmptyString |} []
    = (inr (ValidationErrors ["AppSecret"]), [])
  /\ symbl.New E [] = (inr ClientErrInvalidInput, []).
Proof.
  intros E.
  destruct (missing_credentials_fail_before_any_request E []) as [Hc Hn].
  split.
  - apply (Hc {| symbl.Type_ := EmptyString; symbl.AppId := "id";
                 symbl.AppSecret := EmptyString |}).
    right. reflexivity.
  - apply Hn. right. reflexivity.
Defined.

(** 64-bit multiplication is exact on products that fit. *)
Lemma wrap64_exact (z : Z) :
  - 2 ^ 63 <= z < 2 ^ 63 -> time.wrap64 z = z.
Proof.
  intros Hz. unfold time.wrap64. rewrite Z.mod_small; lia.
Qed.

Lemma seconds_exact (n : Z) :
  - 9223372036 <= n <= 9223372036 ->
  time.mul time.Second n = n * 1000000000.
Proof.
  intros Hn. unfold time.mul, time.Second. rewrite wrap64_exact; lia.
Qed.

(** C8, as the code has it.  The credentials are valid and the
    authentication request is answered without error by a non-empty
    [accessToken] [t] and an [expiresIn] of [n] seconds, where [n] seconds
    fit a [time.Duration]: [n] is between -9223372036 and 9223372036.  Then
    [NewWithCreds] returns a client whose transport holds the token [t],
    expiring [n] seconds after the reading of the clock that follows the
    answer. *)
Theorem NewWithCreds_installs_token
    (E : Env) (creds : symbl.Credentials) (w : World) (t : string) (n : Z) :
  let login :=
    EvDo IntoAuthResp None (symbl.authRequest E (symbl.withDefaultType creds)) in
  symbl.Struct creds = None ->
  NewRequestError E "POST" (AuthURI E) = None ->
  DoAuth E (w ++ [login]) = (None, Some {| AccessToken := t; ExpiresIn := n |}) ->
  t <> EmptyString ->
  - 9223372036 <= n <= 9223372036 ->
  symbl.NewWithCreds E creds w
    = (inl {| symbl.restClient :=
                {| rest.Authorization :=
                     Some {| rest.Token := t;
                             rest.ExpiresOn :=
                               Now E (w ++ [login]) + n * 1000000000 |} |};
              symbl.creds := symbl.withDefaultType creds |},
       w ++ [login]).
Proof.
  intros login Hv Hr Hd Ht Hn.
  rewrite (NewWithCreds_token E creds w Hv Hr _ Hd Ht).
  cbn [AccessToken ExpiresIn]. rewrite seconds_exact by exact Hn.
  reflexivity.
Qed.

(** C8, on the scripted server: the token abc, expiring in 60 s. *)
Lemma NewWithCreds_installs_token_witness :
  let E := mock.env [] [mock.granted "abc" 60] [] in
  let login :=
    EvDo IntoAuthResp None
      (symbl.authRequest E (symbl.withDefaultType mock.creds)) in
  symbl.NewWithCreds E mock.creds []
    = (inl {| symbl.restClient :=
                {| rest.Authorization :=
                     Some {| rest.Token := "abc";
                             rest.ExpiresOn := Now E [login] + 60 * 1000000000 |} |};
              symbl.creds := symbl.withDefaultType mock.creds |},
       [login]).
Proof.
  intros E login.
  apply (NewWithCreds_installs_token E mock.creds [] "abc" 60).
  - reflexivity.
  - reflexivity.
  - reflexivity.
  - discriminate.
  - lia.
Defined.

(** C8 fails for a long lifetime.  The server grants the token abc for
    9223372037 seconds: [time.Second * time.Duration(resp.ExpiresIn)] leaves
    the 64-bit range and wraps to a negative duration, so the token
    [NewWithCreds] installs has expired before the clock reading it was
    computed from, and not 9223372037 seconds after it. *)
Lemma NewWithCreds_expiry_wraps :
  let E := mock.env [] [mock.granted "abc" 9223372037] [] in
  let login :=
    EvDo IntoAuthResp None
      (symbl.authRequest E (symbl.withDefaultType mock.creds)) in
  let token :=
    {| rest.Token := "abc";
       rest.ExpiresOn := Now E [login] + (9223372037 * 1000000000 - 2 ^ 64) |} in
  symbl.NewWithCreds E mock.creds []
    = (inl {| symbl.restClient := {| rest.Authorization := Some token |};
              symbl.creds := symbl.withDefaultType mock.creds |},
       [login])
  /\ rest.ExpiresOn token < Now E [login]
  /\ rest.ExpiresOn token <> Now E [login] + 9223372037 * 1000000000.
Proof.
  intros E login token. split; [|split].
  - rewrite (NewWithCreds_token E mock.creds [] eq_refl eq_refl
               {| AccessToken := "abc"; ExpiresIn := 9223372037 |} eq_refl).
    + reflexivity.
    + discriminate.
  - unfold token. cbn [rest.ExpiresOn]. lia.
  - unfold token. cbn [rest.ExpiresOn]. lia.
Qed.

(** A string of valid encodings is encoded as it is. *)
Lemma text_of_valid (s : string) :
  utf8.ValidString s = true -> json.text s = s.
Proof.
  assert (H : forall n s, (String.length s <= n)%nat ->
                utf8.ValidString s = true -> json.text s = s).
  { clear s. induction n as [|n IH]; intros s Hlen Hvalid.
    - destruct s; [reflexivity | cbn in Hlen; lia].
    - destruct s as [|s0 rest]; [reflexivity|].
      cbn [utf8.ValidString json.text] in *.
      destruct (utf8.runeSize (String s0 rest)) as [[|[|[|[|[|k]]]]]|];
        try discriminate;
        repeat match goal with
               | |- context [match ?r with EmptyString => _ | String _ _ => _ end] =>
                   is_var r; destruct r
               end;
        repeat f_equal; apply IH; try assumption;
        cbn [String.length] in Hlen |- *; lia. }
  apply (H (String.length s)). lia.
Qed.

(** C9, as the code has it.  The credentials are valid and their [Type] is
    empty.  Then [NewWithCreds] sends exactly one request, a POST to
    [common.AuthURI] without authorization, whose body is a JSON object with
    [type] application and, as [appId] and [appSecret], the given id and
    secret in which every byte that is not part of a valid UTF-8 encoding is
    replaced by U+FFFD: the given id and secret themselves when they are
    valid UTF-8. *)
Theorem NewWithCreds_request_body
    (E : Env) (creds : symbl.Credentials) (w : World) :
  symbl.Type_ creds = EmptyString ->
  symbl.AppId creds <> EmptyString ->
  symbl.AppSecret creds <> EmptyString ->
  NewRequestError E "POST" (AuthURI E) = None ->
  exists doc,
    snd (symbl.NewWithCreds E creds w)
      = w ++ [EvDo IntoAuthResp None
                {| http.Method := "POST";
                   http.URL := AuthURI E;
                   http.ReqBody := http.JSONBody doc |}]
    /\ doc = json.Obj
               [ ("type", json.Str "application");
                 ("appId", json.Str (json.text (symbl.AppId creds)));
                 ("appSecret", json.Str (json.text (symbl.AppSecret creds))) ]
    /\ json.member "type" doc = Some (json.Str "application")
    /\ json.member "appId" doc
       = Some (json.Str (json.text (symbl.AppId creds)))
    /\ json.member "appSecret" doc
       = Some (json.Str (json.text (symbl.AppSecret creds)))
    /\ (utf8.ValidString (symbl.AppId creds) = true ->
        utf8.ValidString (symbl.AppSecret creds) = true ->
        doc = json.Obj
                [ ("type", json.Str "application");
                  ("appId", json.Str (symbl.AppId creds));
                  ("appSecret", json.Str (symbl.AppSecret creds)) ]).
Proof.
  intros Ht Hid Hsecret Hr.
  assert (Hv : symbl.Struct creds = None).
  { unfold symbl.Struct, validator.required.
    apply String.eqb_neq in Hid, Hsecret. rewrite Hid, Hsecret. reflexivity. }
  eexists. split; [|split; [reflexivity|repeat split]].
  - destruct (NewWithCreds_history E creds w) as [Hw | Hw].
    + exfalso. revert Hw.
      unfold symbl.NewWithCreds, bind, rest_DoAuth, time_Now, ret.
      rewrite Hv, Hr. cbn [rest.Authorization rest.New].
      destruct (DoAuth E _) as [[err|] stored].
      * cbn [snd]. intros Hw. apply (f_equal (@List.length Event)) in Hw.
        rewrite length_app in Hw. cbn in Hw. lia.
      * destruct (String.eqb _ _); cbn [snd]; intros Hw;
          apply (f_equal (@List.length Event)) in Hw;
          rewrite length_app in Hw; cbn in Hw; lia.
    + rewrite Hw. unfold symbl.authRequest, symbl.withDefaultType, symbl.Marshal.
      rewrite Ht. cbn [String.eqb symbl.Type_ symbl.AppId symbl.AppSecret].
      reflexivity.
  - intros Vid Vsecret.
    rewrite (text_of_valid _ Vid), (text_of_valid _ Vsecret). reflexivity.
Qed.

(** C9, on the scripted server. *)
Lemma NewWithCreds_request_body_witness :
  let E := mock.env [] [mock.granted "abc" 60] [] in
  snd (symbl.NewWithCreds E mock.creds [])
    = [EvDo IntoAuthResp None
         {| http.Method := "POST";
            http.URL := AuthURI E;
            http.ReqBody :=
              http.JSONBody
                (json.Obj [ ("type", json.Str "application");
                            ("appId", json.Str "id");
                            ("appSecret", json.Str "secret") ]) |}].
Proof.
  intros E.
  destruct (NewWithCreds_request_body E mock.creds [])
    as (doc & Hw & _ & _ & _ & _ & Hdoc).
  - reflexivity.
  - discriminate.
  - discriminate.
  - reflexivity.
  - rewrite Hw, Hdoc; reflexivity.
Defined.

(** C9 fails on an id that is not valid UTF-8.  The id is the single byte
    FF, which the validator accepts as it is not empty: the body
    [json.Marshal] builds holds U+FFFD as [appId], not the given id. *)
Lemma NewWithCreds_body_replaces_invalid_bytes :
  let E := mock.env [] [mock.granted "abc" 60] [] in
  let creds :=
    {| symbl.Type_ := EmptyString;
       symbl.AppId := String (ascii_of_nat 255) EmptyString;
       symbl.AppSecret := "secret" |} in
  let doc :=
    json.Obj [ ("type", json.Str "application");
               ("appId", json.Str utf8.RuneError);
               ("appSecret", json.Str "secret") ] in
  symbl.Struct creds = None
  /\ snd (symbl.NewWithCreds E creds [])
     = [EvDo IntoAuthResp None
          {| http.Method := "POST";
             http.URL := AuthURI E;
             http.ReqBody := http.JSONBody doc |}]
  /\ json.member "appId" doc <> Some (json.Str (symbl.AppId creds)).
Proof.
  intros E creds doc. split; [reflexivity|]. split; [reflexivity|].
  vm_compute. discriminate.
Qed.

(** ** [GetSummaryUI] *)

Lemma issued_extends req i c w :
  exists suffix, issued req i c w = w ++ suffix.
Proof.
  unfold issued. destruct (1 <? i); rewrite <- ?app_assoc; eexists; reflexivity.
Qed.

(** [Do] only adds to the history, and an iteration that runs starts by
    issuing the request. *)
Lemma Do_from_history E req k :
  forall i c err res w,
  exists suffix,
    snd (symbl.Do_from E k i c req err res w)
      = match k with
        | O => w
        | S _ => issued req i c w
        end ++ suffix.
Proof.
  induction k as [|k IH]; intros i c err res w.
  - exists []. rewrite app_nil_r. reflexivity.
  - assert (Hrest : forall i' c' err' res' w2 s0,
              w2 = issued req i c w ++ s0 ->
              exists suffix,
                snd (symbl.Do_from E k i' c' req err' res' w2)
                  = issued req i c w ++ suffix).
    { intros i' c' err' res' w2 s0 ->.
      destruct (IH i' c' err' res' (issued req i c w ++ s0)) as [s1 ->].
      destruct k.
      - rewrite <- app_assoc. eexists. reflexivity.
      - destruct (issued_extends req i' c' (issued req i c w ++ s0))
          as [s2 ->].
        rewrite <- !app_assoc. eexists. reflexivity. }
    destruct (DoResult E (issued req i c w)) as [e stored] eqn:Hd.
    assert (Hcases : (exists Resp, e = Some (RestStatusError Resp))
                     \/ forall Resp, e <> Some (RestStatusError Resp)).
    { destruct e as [[Resp| | | | | | |]|];
        try (right; intros Resp' H; discriminate H).
      left. exists Resp. reflexivity. }
    destruct Hcases as [[Resp ->] | Hother].
    + destruct (Z.eq_dec (http.StatusCode Resp) http.StatusUnauthorized)
        as [H401 | Hnot].
      * pose proof (NewWithCreds_history E (symbl.creds c) (issued req i c w))
          as Hh.
        destruct (symbl.NewWithCreds E (symbl.creds c) (issued req i c w))
          as [[nc | e] w2] eqn:Hnew; cbn [snd] in Hh.
        -- rewrite (Do_from_reauth E req _ _ _ _ _ _ _ _ _ _ Hd H401 Hnew).
           destruct Hh as [-> | ->].
           ++ apply (Hrest _ _ _ _ _ []). rewrite app_nil_r. reflexivity.
           ++ eapply Hrest. reflexivity.
        -- rewrite (Do_from_reauth_fails E req _ _ _ _ _ _ _ _ _ _ Hd H401 Hnew).
           cbn [snd]. destruct Hh as [-> | ->].
           ++ exists []. rewrite app_nil_r. reflexivity.
           ++ eexists. reflexivity.
      * rewrite (Do_from_retry E req _ _ _ _ _ _ _ _ Hd Hnot).
        apply (Hrest _ _ _ _ _ []). rewrite app_nil_r. reflexivity.
    + rewrite (Do_from_return E req _ _ _ _ _ _ _ _ Hd Hother).
      exists []. cbn [snd]. rewrite app_nil_r. reflexivity.
Qed.

Lemma Do_first_request E c req res w :
  exists suffix,
    snd (symbl.Do E c req res w)
      = w ++ EvDo IntoResult (rest.Authorization (symbl.restClient c)) req
             :: suffix.
Proof.
  unfold symbl.Do. change (Z.to_nat symbl.defaultAttemptsToReauth) with 3%nat.
  destruct (Do_from_history E req 3 1 c None res w) as [suffix ->].
  rewrite issued_first, <- app_assoc. exists suffix. reflexivity.
Qed.

(** A summary endpoint that gets as far as the network starts by sending the
    body it was given to the summary URI of the conversation. *)
Lemma postSummary_request E c conversationId body w :
  conversationId <> EmptyString ->
  NewRequestError E "POST" (GetAsyncAPI E (SummaryURI E) [conversationId])
    = None ->
  exists suffix,
    snd (async.postSummary E c conversationId body w)
      = w ++ EvDo IntoResult (rest.Authorization (symbl.restClient c))
               {| http.Method := "POST";
                  http.URL := GetAsyncAPI E (SummaryURI E) [conversationId];
                  http.ReqBody := body |}
             :: suffix.
Proof.
  intros Hc Hr. unfold async.postSummary.
  apply String.eqb_neq in Hc. rewrite Hc, Hr.
  unfold async.checkTheStatus, bind.
  set (req := {| http.Method := "POST"; http.URL := _; http.ReqBody := body |}).
  destruct (Do_first_request E c req (ZeroResult E) w) as [suffix Hs].
  destruct (symbl.Do E c req (ZeroResult E) w) as [[[c' result] err] w'].
  cbn [snd] in Hs. subst w'. exists suffix.
  destruct err as [[Resp| Resp | | | | | |]|]; try reflexivity.
  destruct (negb _); reflexivity.
Qed.

Lemma len_zero (s : string) : strings.len s = 0 <-> s = EmptyString.
Proof.
  unfold strings.len. destruct s; cbn [String.length]; split; intros H;
    try reflexivity; try discriminate; lia.
Qed.

(** C10.  [GetSummaryUI] is called with a non-empty URI that [url.Parse]
    accepts and whose path has a dot; [extension] is what follows the last
    dot.  If [extension] is [AudioTypeMP3] or [AudioTypeMpeg], the call is
    the call of [GetVideoSummaryUI] with the video-summary request for the
    URI, and so it is for every extension other than [AudioTypeWav].  The
    call is the call of [GetAudioSummaryUI] with the audio-summary request
    when [extension] is [AudioTypeWav] (and none of the two constants before
    it in the switch).  In each case, once the conversation id is not empty
    and the request can be built, the first thing sent is a POST to the
    summary URI of the conversation whose body is that request: the
    video-summary request for mp3 and mpeg, the audio-summary request for
    wav only. *)
Theorem GetSummaryUI_dispatch
    (E : Env) (c : symbl.Client) (conversationId uri Path : string) (w : World) :
  let extension := strings.sliceFrom Path (strings.LastIndex Path "." + 1) in
  let video :=
    {| interfaces.VideoName := "video-summary"; interfaces.VideoURL := uri |} in
  let audio :=
    {| interfaces.AudioName := "audio-summary"; interfaces.AudioURL := uri |} in
  let sends (body : http.Body) :=
    conversationId <> EmptyString ->
    NewRequestError E "POST" (GetAsyncAPI E (SummaryURI E) [conversationId])
      = None ->
    exists suffix,
      snd (async.GetSummaryUI E c conversationId uri w)
        = w ++ EvDo IntoResult (rest.Authorization (symbl.restClient c))
                 {| http.Method := "POST";
                    http.URL := GetAsyncAPI E (SummaryURI E) [conversationId];
                    http.ReqBody := body |}
               :: suffix in
  uri <> EmptyString ->
  ParsePath E uri = inl Path ->
  strings.LastIndex Path "." <> -1 ->
  (extension = AudioTypeMP3 E \/ extension = AudioTypeMpeg E ->
   async.GetSummaryUI E c conversationId uri w
     = async.GetVideoSummaryUI E c conversationId video w
   /\ sends (http.VideoSummaryBody video))
  /\ (extension <> AudioTypeWav E ->
      async.GetSummaryUI E c conversationId uri w
        = async.GetVideoSummaryUI E c conversationId video w
      /\ sends (http.VideoSummaryBody video))
  /\ (extension = AudioTypeWav E ->
      extension <> AudioTypeMP3 E ->
      extension <> AudioTypeMpeg E ->
      async.GetSummaryUI E c conversationId uri w
        = async.GetAudioSummaryUI E c conversationId audio w
      /\ sends (http.AudioSummaryBody audio)).
Proof.
  intros extension video audio sends Huri Hparse Hdot.
  assert (Hlen : (strings.len uri =? 0) = false).
  { apply Z.eqb_neq. intros H. apply Huri, len_zero, H. }
  assert (Hpos : (strings.LastIndex Path "." =? -1) = false).
  { apply Z.eqb_neq. exact Hdot. }
  assert (Hempty : conversationId = EmptyString ->
            async.GetSummaryUI E c conversationId uri w
              = async.GetVideoSummaryUI E c conversationId video w).
  { intros ->. reflexivity. }
  assert (Hunfold : conversationId <> EmptyString ->
            async.GetSummaryUI E c conversationId uri w
              = (if String.eqb extension (AudioTypeMP3 E)
                 then async.GetVideoSummaryUI E c conversationId video
                 else if String.eqb extension (AudioTypeMpeg E)
                 then async.GetVideoSummaryUI E c conversationId video
                 else if String.eqb extension (AudioTypeWav E)
                 then async.GetAudioSummaryUI E c conversationId audio
                 else async.GetVideoSummaryUI E c conversationId video) w).
  { intros Hc. apply String.eqb_neq in Hc. unfold async.GetSummaryUI.
    rewrite Hc, Hlen, Hparse, Hpos. reflexivity. }
  assert (Hsends : forall body,
            async.GetSummaryUI E c conversationId uri w
              = async.postSummary E c conversationId body w ->
            sends body).
  { intros body Heq Hne Hreq. rewrite Heq.
    apply postSummary_request; assumption. }
  assert (Hvideo : extension = AudioTypeMP3 E \/ extension = AudioTypeMpeg E ->
            async.GetSummaryUI E c conversationId uri w
              = async.GetVideoSummaryUI E c conversationId video w).
  { intros Hext.
    destruct (String.eqb_spec conversationId EmptyString) as [He | Hne];
      [apply Hempty, He|].
    rewrite (Hunfold Hne).
    destruct Hext as [<- | <-].
    - rewrite String.eqb_refl. reflexivity.
    - rewrite String.eqb_refl. destruct (String.eqb _ _); reflexivity. }
  assert (Hother : extension <> AudioTypeWav E ->
            async.GetSummaryUI E c conversationId uri w
              = async.GetVideoSummaryUI E c conversationId video w).
  { intros Hwav.
    destruct (String.eqb_spec conversationId EmptyString) as [He | Hne];
      [apply Hempty, He|].
    rewrite (Hunfold Hne). apply String.eqb_neq in Hwav. rewrite Hwav.
    destruct (String.eqb _ _); [reflexivity|].
    destruct (String.eqb _ _); reflexivity. }
  assert (Haudio : extension = AudioTypeWav E ->
            extension <> AudioTypeMP3 E ->
            extension <> AudioTypeMpeg E ->
            async.GetSummaryUI E c conversationId uri w
              = async.GetAudioSummaryUI E c conversationId audio w).
  { intros Hwav Hmp3 Hmpeg.
    destruct (String.eqb_spec conversationId EmptyString) as [He | Hne].
    - subst conversationId. reflexivity.
    - rewrite (Hunfold Hne).
      apply String.eqb_neq in Hmp3, Hmpeg. rewrite Hmp3, Hmpeg.
      rewrite Hwav, String.eqb_refl. reflexivity. }
  split; [|split].
  - intros Hext. split; [apply Hvideo, Hext|].
    apply Hsends. apply Hvideo, Hext.
  - intros Hwav. split; [apply Hother, Hwav|].
    apply Hsends. apply Hother, Hwav.
  - intros Hwav Hmp3 Hmpeg. split; [apply Haudio; assumption|].
    apply Hsends. apply Haudio; assumption.
Qed.

(** C10, on the scripted server: a recording ending in mp3 goes out as a
    video-summary request, one ending in wav as an audio-summary request. *)
Lemma GetSummaryUI_dispatch_witness :
  let E := mock.env [] [] [(None, Some (json.Str "ok"))] in
  let mp3 := "/recordings/2022.11.01/call.mp3" in
  let wav := "/recordings/2022.11.01/call.wav" in
  let post (body : http.Body) :=
    EvDo IntoResult (rest.Authorization (symbl.restClient mock.client))
      {| http.Method := "POST";
         http.URL := GetAsyncAPI E (SummaryURI E) ["42"];
         http.ReqBody := body |} in
  (exists suffix,
     snd (async.GetSummaryUI E mock.client "42" mp3 [])
       = [] ++ post (http.VideoSummaryBody
                       {| interfaces.VideoName := "video-summary";
                          interfaces.VideoURL := mp3 |})
               :: suffix)
  /\ (exists suffix,
        snd (async.GetSummaryUI E mock.client "42" wav [])
          = [] ++ post (http.AudioSummaryBody
                          {| interfaces.AudioName := "audio-summary";
                             interfaces.AudioURL := wav |})
                  :: suffix).
Proof.
  intros E mp3 wav post. split.
  - destruct (GetSummaryUI_dispatch E mock.client "42" mp3 mp3 [])
      as [Hmp3 _].
    + discriminate.
    + reflexivity.
    + vm_compute. discriminate.
    + destruct Hmp3 as [_ Hsent]; [left; reflexivity|].
      apply Hsent; [discriminate | reflexivity].
  - destruct (GetSummaryUI_dispatch E mock.client "42" wav wav [])
      as (_ & _ & Hwav).
    + discriminate.
    + reflexivity.
    + vm_compute. discriminate.
    + destruct Hwav as [_ Hsent];
        [reflexivity | vm_compute; discriminate | vm_compute; discriminate|].
      apply Hsent; [discriminate | reflexivity].
Defined.

(** * More of the code *)

(** ** What [Do] does on every run *)

Lemma sleeps_app (w w' : World) :
  sleeps (w ++ w') = (sleeps w + sleeps w')%nat.
Proof.
  unfold sleeps. rewrite filter_app, length_app. reflexivity.
Qed.

(** What an iteration adds before the transport answers. *)
Lemma issued_split req i c w :
  issued req i c w
    = w ++ (if 1 <? i then [EvSleep RetryDelay] else [])
        ++ [EvDo IntoResult (rest.Authorization (symbl.restClient c)) req].
Proof.
  unfold issued. destruct (1 <? i).
  - rewrite <- app_assoc. reflexivity.
  - reflexivity.
Qed.

(** The outcome of the transport is a status error or it is not. *)
Lemma status_error_or_not (e : option error) :
  (exists Resp, e = Some (RestStatusError Resp))
  \/ forall Resp, e <> Some (RestStatusError Resp).
Proof.
  destruct e as [[Resp| | | | | | |]|];
    try (right; intros Resp' H; discriminate H).
  left. exists Resp. reflexivity.
Qed.

(** The invariant of the loop of [Do], from any iteration [i >= 1] with [k]
    iterations left. *)
Lemma Do_from_invariant E req k :
  forall i c err res w c' res' err' w',
  1 <= i ->
  symbl.Do_from E k i c req err res w = ((c', res', err'), w') ->
  exists suffix,
    w' = w ++ suffix
    /\ symbl.creds c' = symbl.creds c
    /\ Forall (DoEvent E (symbl.creds c) req) suffix
    /\ (attempts suffix <= k)%nat
    /\ (authentications suffix <= attempts suffix)%nat
    /\ (k = 0%nat -> suffix = [])
    /\ (k <> 0%nat ->
        (1 <= attempts suffix)%nat
        /\ (sleeps suffix + (if (1 <? i)%Z then 0 else 1) = attempts suffix)%nat)
    /\ (authentications suffix = 0%nat -> c' = c)
    /\ (err' = None ->
        (k = 0%nat /\ err = None)
        \/ exists prefix auth,
             w' = prefix ++ [EvDo IntoResult auth req]
             /\ fst (DoResult E w') = None).
Proof.
  induction k as [|k IH]; intros i c err res w c' res' err' w' Hi Hrun.
  - cbn in Hrun. injection Hrun as <- <- <- <-. exists [].
    rewrite app_nil_r. repeat split; auto; try (cbn; lia).
  - assert (Hnext : (1 <? i + 1) = true) by (apply Z.ltb_lt; lia).
    set (auth := rest.Authorization (symbl.restClient c)).
    set (pre := (if 1 <? i then [EvSleep RetryDelay] else [])
                  ++ [EvDo IntoResult auth req]).
    assert (Hw1 : issued req i c w = w ++ pre) by apply issued_split.
    assert (Hpre : Forall (DoEvent E (symbl.creds c) req) pre
                   /\ attempts pre = 1%nat
                   /\ authentications pre = 0%nat
                   /\ (sleeps pre + (if (1 <? i)%Z then 0 else 1) = 1)%nat).
    { unfold pre. destruct (1 <? i); repeat split;
        repeat constructor. }
    destruct Hpre as (Fpre & Apre & Upre & Spre).
    destruct (DoResult E (issued req i c w)) as [e stored] eqn:Hd.
    destruct (status_error_or_not e) as [[Resp ->] | Hother].
    + destruct (Z.eq_dec (http.StatusCode Resp) http.StatusUnauthorized)
        as [H401 | Hnot].
      * pose proof (NewWithCreds_history E (symbl.creds c) (issued req i c w))
          as Hh.
        destruct (symbl.NewWithCreds E (symbl.creds c) (issued req i c w))
          as [[nc | reauthErr] w2] eqn:Hnew; cbn [snd] in Hh.
        -- (* re-authenticated: the next iteration *)
           destruct (NewWithCreds_inl _ _ _ _ _ Hnew) as [Hw2 _]. clear Hh.
           rewrite (Do_from_reauth E req _ _ _ _ _ _ _ _ _ _ Hd H401 Hnew)
             in Hrun.
           apply IH in Hrun; [|lia].
           destruct Hrun as (s' & Ew' & Hc & F' & A' & U' & Z' & S' & C' & N').
           cbn [symbl.creds] in Hc, F'.
           set (login := EvDo IntoAuthResp None
                  (symbl.authRequest E (symbl.withDefaultType (symbl.creds c))))
             in *.
           exists (pre ++ [login] ++ s').
           assert (Ew : w' = w ++ pre ++ [login] ++ s').
           { rewrite Ew', Hw2, Hw1, <- !app_assoc. reflexivity. }
           rewrite ?attempts_app, ?authentications_app, ?sleeps_app.
           rewrite Apre, Upre. cbn [attempts authentications sleeps filter
             isAttempt isAuthentication isSleep login List.length].
           split; [exact Ew|]. split; [exact Hc|].
           split; [apply Forall_app; split; [exact Fpre|];
                   constructor; [split; reflexivity | exact F']|].
           split; [lia|]. split; [lia|]. split; [discriminate|].
           split.
           { intros _. split; [lia|].
             destruct k as [|k'].
             - rewrite (Z' eq_refl). cbn. lia.
             - destruct S' as [_ S']; [discriminate|].
               rewrite Hnext in S'. lia. }
           split; [intros H; lia|].
           intros He. destruct (N' He) as [[_ Habs] | N2];
             [discriminate Habs|]. right. exact N2.
        -- (* the re-authentication failed *)
           rewrite (Do_from_reauth_fails E req _ _ _ _ _ _ _ _ _ _ Hd H401 Hnew)
             in Hrun.
           injection Hrun as <- <- <- <-.
           set (login := EvDo IntoAuthResp None
                  (symbl.authRequest E (symbl.withDefaultType (symbl.creds c))))
             in *.
           assert (Hs : exists s0, w2 = w ++ pre ++ s0
                          /\ (s0 = [] \/ s0 = [login])).
           { destruct Hh as [-> | ->].
             - exists []. rewrite app_nil_r. split; [exact Hw1 | left; reflexivity].
             - exists [login]. rewrite Hw1, <- app_assoc.
               split; [reflexivity | right; reflexivity]. }
           destruct Hs as (s0 & -> & Hs0). exists (pre ++ s0).
           rewrite ?attempts_app, ?authentications_app, ?sleeps_app.
           rewrite Apre, Upre.
           split; [reflexivity|]. split; [reflexivity|].
           split; [apply Forall_app; split; [exact Fpre|];
                   destruct Hs0 as [-> | ->]; repeat constructor|].
           destruct Hs0 as [-> | ->]; cbn; repeat split; try lia;
             try discriminate.
      * (* another status: the next iteration *)
        rewrite (Do_from_retry E req _ _ _ _ _ _ _ _ Hd Hnot) in Hrun.
        apply IH in Hrun; [|lia].
        destruct Hrun as (s' & Ew' & Hc & F' & A' & U' & Z' & S' & C' & N').
        exists (pre ++ s').
        assert (Ew : w' = w ++ pre ++ s').
        { rewrite Ew', Hw1, <- app_assoc. reflexivity. }
        rewrite ?attempts_app, ?authentications_app, ?sleeps_app.
        rewrite Apre, Upre.
        split; [exact Ew|]. split; [exact Hc|].
        split; [apply Forall_app; split; [exact Fpre | exact F']|].
        split; [lia|]. split; [lia|]. split; [discriminate|].
        split.
        { intros _. split; [lia|].
          destruct k as [|k'].
          - rewrite (Z' eq_refl). cbn. lia.
          - destruct S' as [_ S']; [discriminate|].
            rewrite Hnext in S'. lia. }
        split; [intros H; apply C'; lia|].
        intros He. destruct (N' He) as [[_ Habs] | N2];
          [discriminate Habs|]. right. exact N2.
    + (* the attempt ends Do *)
      rewrite (Do_from_return E req _ _ _ _ _ _ _ _ Hd Hother) in Hrun.
      injection Hrun as <- <- <- <-. exists pre.
      rewrite Apre, Upre.
      split; [exact Hw1|]. split; [reflexivity|]. split; [exact Fpre|].
      split; [lia|]. split; [lia|]. split; [discriminate|].
      split; [intros _; split; [lia | exact Spre]|].
      split; [reflexivity|].
      intros He. right. rewrite Hw1.
      exists (w ++ (if 1 <? i then [EvSleep RetryDelay] else [])), auth.
      split.
      * unfold pre. rewrite <- app_assoc. reflexivity.
      * rewrite <- Hw1, Hd. exact He.
Qed.

(** [Do] as its loop: three iterations from the first. *)
Lemma Do_invariant E c req res w c' res' err' w' :
  symbl.Do E c req res w = ((c', res', err'), w') ->
  exists suffix,
    w' = w ++ suffix
    /\ symbl.creds c' = symbl.creds c
    /\ Forall (DoEvent E (symbl.creds c) req) suffix
    /\ (1 <= attempts suffix <= 3)%nat
    /\ (authentications suffix <= attempts suffix)%nat
    /\ (sleeps suffix + 1 = attempts suffix)%nat
    /\ (authentications suffix = 0%nat -> c' = c)
    /\ (err' = None ->
        exists prefix auth,
          w' = prefix ++ [EvDo IntoResult auth req]
          /\ fst (DoResult E w') = None).
Proof.
  unfold symbl.Do. change (Z.to_nat symbl.defaultAttemptsToReauth) with 3%nat.
  intros Hrun. apply Do_from_invariant in Hrun; [|lia].
  destruct Hrun as (s & Ew & Hc & F & A & U & _ & S & C & N).
  destruct S as [S1 S2]; [discriminate|]. cbn in S2.
  exists s. repeat split; try assumption; try lia.
  intros He. destruct (N He) as [[Habs _] | N2]; [discriminate Habs | exact N2].
Qed.

(** X1.  Whatever the transport and the authentication endpoint answer, [Do]
    only adds to the history, and what it adds holds between one and
    [defaultAttemptsToReauth] = 3 attempts, one sleep less than attempts, and
    no more authentication requests than attempts. *)
Theorem Do_attempts_bounded
    (E : Env) (c : symbl.Client) (req : http.Request) (res : Result E)
    (w : World) :
  exists suffix,
    snd (symbl.Do E c req res w) = w ++ suffix
    /\ (1 <= attempts suffix <= 3)%nat
    /\ (sleeps suffix + 1 = attempts suffix)%nat
    /\ (authentications suffix <= attempts suffix)%nat.
Proof.
  destruct (symbl.Do E c req res w) as [[[c' res'] err'] w'] eqn:Hrun.
  destruct (Do_invariant _ _ _ _ _ _ _ _ _ Hrun)
    as (s & Ew & _ & _ & A & U & S & _).
  exists s. cbn [snd]. repeat split; try assumption; lia.
Qed.

(** X2.  Whatever the answers, every event [Do] adds to the history is an
    attempt of the request it was given, the authentication request built
    from the credentials the client holds (sent without authorization), or a
    sleep of [RetryDelay]: [Do] sends no other request and waits no other
    time. *)
Theorem Do_sends_only_its_requests
    (E : Env) (c : symbl.Client) (req : http.Request) (res : Result E)
    (w : World) :
  exists suffix,
    snd (symbl.Do E c req res w) = w ++ suffix
    /\ Forall (DoEvent E (symbl.creds c) req) suffix.
Proof.
  destruct (symbl.Do E c req res w) as [[[c' res'] err'] w'] eqn:Hrun.
  destruct (Do_invariant _ _ _ _ _ _ _ _ _ Hrun) as (s & Ew & _ & F & _).
  exists s. cbn [snd]. split; assumption.
Qed.

(** X3.  [Do] never changes the credentials of the client, and it leaves the
    whole client as it was unless an authentication request was sent. *)
Theorem Do_keeps_credentials
    (E : Env) (c : symbl.Client) (req : http.Request) (res : Result E)
    (w : World) :
  let run := symbl.Do E c req res w in
  let c' := fst (fst (fst run)) in
  symbl.creds c' = symbl.creds c
  /\ (authentications (snd run) = authentications w -> c' = c).
Proof.
  cbv zeta.
  destruct (symbl.Do E c req res w) as [[[c' res'] err'] w'] eqn:Hrun.
  destruct (Do_invariant _ _ _ _ _ _ _ _ _ Hrun)
    as (s & Ew & Hc & _ & _ & _ & _ & C & _).
  cbn [fst snd]. split; [exact Hc|].
  intros Ha. apply C. rewrite Ew, authentications_app in Ha. lia.
Qed.

(** X3, on the scripted server: three 500s leave the client as it was. *)
Lemma Do_keeps_credentials_witness :
  let E := mock.env [] []
             [(Some (mock.status 500 "500 Internal Server Error"), None);
              (Some (mock.status 500 "500 Internal Server Error"), None);
              (Some (mock.status 500 "500 Internal Server Error"), None)] in
  fst (fst (fst (symbl.Do E mock.client mock.request (json.Obj []) [])))
    = mock.client.
Proof.
  intros E.
  apply (Do_keeps_credentials E mock.client mock.request (json.Obj []) []).
  reflexivity.
Defined.

(** X4.  [Do] returns [nil] only when the last thing that happened is an
    attempt of the request that the transport answered with [nil]: success
    is never made up after a failed attempt. *)
Theorem Do_nil_is_the_last_answer
    (E : Env) (c : symbl.Client) (req : http.Request) (res : Result E)
    (w : World) (c' : symbl.Client) (res' : Result E) (w' : World) :
  symbl.Do E c req res w = ((c', res', None), w') ->
  exists prefix auth,
    w' = prefix ++ [EvDo IntoResult auth req]
    /\ fst (DoResult E w') = None.
Proof.
  intros Hrun.
  destruct (Do_invariant _ _ _ _ _ _ _ _ _ Hrun) as (s & _ & _ & _ & _ & _ & _ & _ & N).
  apply N. reflexivity.
Qed.

(** X4, on the scripted server: 500, then success. *)
Lemma Do_nil_is_the_last_answer_witness :
  let E := mock.env [] []
             [(Some (mock.status 500 "500 Internal Server Error"), None);
              (None, Some (json.Str "ok"))] in
  exists prefix auth w',
    w' = prefix ++ [EvDo IntoResult auth mock.request]
    /\ fst (DoResult E w') = None.
Proof.
  intros E.
  destruct (symbl.Do E mock.client mock.request (json.Obj []) [])
    as [[[c' res'] [e|]] w'] eqn:Hrun; [vm_compute in Hrun; discriminate|].
  destruct (Do_nil_is_the_last_answer E mock.client mock.request (json.Obj [])
              [] c' res' w' Hrun) as (prefix & auth & Hw & Hn).
  exists prefix, auth, w'. split; assumption.
Defined.

(** ** More runs of [Do] *)

(** X5.  All three attempts of [Do] are answered by status 401 and every
    re-authentication succeeds.  Then [Do] authenticates three times, the
    third time although no attempt follows, returns the third 401 error, and
    leaves in the client the transport of the third authentication: three
    attempts, three authentication requests, two sleeps. *)
Theorem Do_gives_up_after_three_401
    (E : Env) (c : symbl.Client) (req : http.Request) (res : Result E)
    (w : World) (R1 R2 R3 : http.Response) (s1 s2 s3 : option (Result E))
    (nc1 nc2 nc3 : symbl.Client) (v1 v2 v3 : World) :
  let login :=
    EvDo IntoAuthResp None
      (symbl.authRequest E (symbl.withDefaultType (symbl.creds c))) in
  let attempt (client : symbl.Client) :=
    EvDo IntoResult (rest.Authorization (symbl.restClient client)) req in
  let h1 := w ++ [attempt c] in
  let h2 := h1 ++ [login; EvSleep RetryDelay; attempt nc1] in
  let h3 := h2 ++ [login; EvSleep RetryDelay; attempt nc2] in
  DoResult E h1 = (Some (RestStatusError R1), s1) ->
  http.StatusCode R1 = http.StatusUnauthorized ->
  symbl.NewWithCreds E (symbl.creds c) h1 = (inl nc1, v1) ->
  DoResult E h2 = (Some (RestStatusError R2), s2) ->
  http.StatusCode R2 = http.StatusUnauthorized ->
  symbl.NewWithCreds E (symbl.creds c) h2 = (inl nc2, v2) ->
  DoResult E h3 = (Some (RestStatusError R3), s3) ->
  http.StatusCode R3 = http.StatusUnauthorized ->
  symbl.NewWithCreds E (symbl.creds c) h3 = (inl nc3, v3) ->
  symbl.Do E c req res w
    = (({| symbl.restClient := symbl.restClient nc3;
           symbl.creds := symbl.creds c |},
        assign s3 (assign s2 (assign s1 res)),
        Some (RestStatusError R3)),
       h3 ++ [login])
  /\ attempts (h3 ++ [login]) = (attempts w + 3)%nat
  /\ authentications (h3 ++ [login]) = (authentications w + 3)%nat
  /\ sleeps (h3 ++ [login]) = (sleeps w + 2)%nat.
Proof.
  intros login attempt h1 h2 h3 D1 U1 N1 D2 U2 N2 D3 U3 N3.
  destruct (NewWithCreds_inl _ _ _ _ _ N1) as [-> _].
  destruct (NewWithCreds_inl _ _ _ _ _ N2) as [-> _].
  destruct (NewWithCreds_inl _ _ _ _ _ N3) as [-> _].
  fold login in N1, N2, N3.
  set (c1 := {| symbl.restClient := symbl.restClient nc1;
                symbl.creds := symbl.creds c |}).
  set (c2 := {| symbl.restClient := symbl.restClient nc2;
                symbl.creds := symbl.creds c |}).
  assert (E2 : h2 = issued req 2 c1 (h1 ++ [login])).
  { rewrite issued_later by lia. unfold h2. rewrite <- app_assoc. reflexivity. }
  assert (E3 : h3 = issued req 3 c2 (h2 ++ [login])).
  { rewrite issued_later by lia. unfold h3. rewrite <- app_assoc. reflexivity. }
  split; [|split; [|split]].
  - unfold symbl.Do. change (Z.to_nat symbl.defaultAttemptsToReauth) with 3%nat.
    change h1 with (issued req 1 c w) in D1, N1.
    rewrite (Do_from_reauth E req _ _ _ _ _ _ _ _ _ _ D1 U1 N1).
    change (1 + 1) with 2. fold c1. change (issued req 1 c w) with h1.
    rewrite E2 in D2, N2.
    rewrite (Do_from_reauth E req _ _ _ _ _ _ _ _ _ _ D2 U2 N2).
    change (2 + 1) with 3. cbn [symbl.creds c1]. fold c2. rewrite <- E2.
    rewrite E3 in D3, N3.
    rewrite (Do_from_reauth E req _ _ _ _ _ _ _ _ _ _ D3 U3 N3).
    rewrite <- E3. reflexivity.
  - unfold h3, h2, h1. rewrite !attempts_app. cbn. lia.
  - unfold h3, h2, h1. rewrite !authentications_app. cbn. lia.
  - unfold h3, h2, h1. rewrite !sleeps_app. cbn. lia.
Qed.

(** X5, on the scripted server: three 401s, three tokens. *)
Lemma Do_gives_up_after_three_401_witness :
  let E := mock.env []
             [mock.granted "t1" 60; mock.granted "t2" 60; mock.granted "t3" 60]
             [(Some (mock.status 401 "401 Unauthorized"), None);
              (Some (mock.status 401 "401 Unauthorized"), None);
              (Some (mock.status 401 "401 Unauthorized"), None)] in
  let run := symbl.Do E mock.client mock.request (json.Obj []) [] in
  snd (fst run) = Some (mock.status 401 "401 Unauthorized")
  /\ attempts (snd run) = 3%nat
  /\ authentications (snd run) = 3%nat
  /\ sleeps (snd run) = 2%nat.
Proof.
  intros E run.
  pose (R := {| http.Status := "401 Unauthorized"; http.StatusCode := 401;
                http.Req := mock.request |}).
  pose (login := EvDo IntoAuthResp None
                   (symbl.authRequest E
                      (symbl.withDefaultType (symbl.creds mock.client)))).
  pose (attempt := fun client : symbl.Client =>
                     EvDo IntoResult
                       (rest.Authorization (symbl.restClient client))
                       mock.request).
  pose (granted := fun (token : string) (h : World) =>
          {| symbl.restClient :=
               {| rest.Authorization :=
                    Some {| rest.Token := token;
                            rest.ExpiresOn :=
                              Now E (h ++ [login]) + 60 * 1000000000 |} |};
             symbl.creds := symbl.creds mock.client |}).
  pose (h1 := [] ++ [attempt mock.client]).
  pose (nc1 := granted "t1" h1).
  pose (h2 := h1 ++ [login; EvSleep RetryDelay; attempt nc1]).
  pose (nc2 := granted "t2" h2).
  pose (h3 := h2 ++ [login; EvSleep RetryDelay; attempt nc2]).
  pose (nc3 := granted "t3" h3).
  destruct (Do_gives_up_after_three_401 E mock.client mock.request
              (json.Obj []) [] R R R None None None nc1 nc2 nc3
              (h1 ++ [login]) (h2 ++ [login]) (h3 ++ [login]))
    as (Hrun & Ha & Hu & Hs); try reflexivity.
  unfold run. rewrite Hrun. cbn [fst snd].
  split; [reflexivity|]. split; [exact Ha|]. split; [exact Hu | exact Hs].
Defined.

(** X6.  The first attempt of [Do] is answered by a status other than 401
    and the second, sent after [RetryDelay] by the same client, by [nil].
    Then [Do] returns [nil] with the result of the second attempt: two
    attempts, one sleep, no authentication request, the client unchanged. *)
Theorem Do_recovers_on_retry
    (E : Env) (c : symbl.Client) (req : http.Request) (res : Result E)
    (w : World) (R1 : http.Response) (s1 s2 : option (Result E)) :
  let attempt :=
    EvDo IntoResult (rest.Authorization (symbl.restClient c)) req in
  DoResult E (w ++ [attempt]) = (Some (RestStatusError R1), s1) ->
  http.StatusCode R1 <> http.StatusUnauthorized ->
  DoResult E (w ++ [attempt; EvSleep RetryDelay; attempt]) = (None, s2) ->
  symbl.Do E c req res w
    = ((c, assign s2 (assign s1 res), None),
       w ++ [attempt; EvSleep RetryDelay; attempt]).
Proof.
  intros attempt D1 N1 D2.
  assert (E2 : w ++ [attempt; EvSleep RetryDelay; attempt]
               = issued req 2 c (w ++ [attempt])).
  { rewrite issued_later by lia. rewrite <- app_assoc. reflexivity. }
  unfold symbl.Do. change (Z.to_nat symbl.defaultAttemptsToReauth) with 3%nat.
  change (w ++ [attempt]) with (issued req 1 c w) in D1, E2.
  rewrite (Do_from_retry E req _ _ _ _ _ _ _ _ D1 N1).
  change (1 + 1) with 2. rewrite E2 in D2.
  rewrite (Do_from_return E req _ _ _ _ _ _ _ _ D2) by discriminate.
  rewrite <- E2. reflexivity.
Qed.

(** X6, on the scripted server: 503, then success. *)
Lemma Do_recovers_on_retry_witness :
  let E := mock.env [] []
             [(Some (mock.status 503 "503 Service Unavailable"), None);
              (None, Some (json.Str "ok"))] in
  let attempt :=
    EvDo IntoResult (rest.Authorization (symbl.restClient mock.client))
      mock.request in
  symbl.Do E mock.client mock.request (json.Obj []) []
    = ((mock.client, json.Str "ok", None),
       [attempt; EvSleep RetryDelay; attempt]).
Proof.
  intros E attempt.
  apply (Do_recovers_on_retry E mock.client mock.request (json.Obj []) []
           {| http.Status := "503 Service Unavailable";
              http.StatusCode := 503; http.Req := mock.request |}
           None (Some (json.Str "ok"))).
  - reflexivity.
  - vm_compute. discriminate.
  - reflexivity.
Defined.

(** ** More on authentication *)

Lemma Struct_valid (creds : symbl.Credentials) :
  symbl.Struct creds = None
  <-> symbl.AppId creds <> EmptyString /\ symbl.AppSecret creds <> EmptyString.
Proof.
  unfold symbl.Struct, validator.required.
  destruct (String.eqb_spec (symbl.AppId creds) EmptyString) as [Hi | Hi];
    destruct (String.eqb_spec (symbl.AppSecret creds) EmptyString) as [Hs | Hs];
    cbn [app]; split; try discriminate; try tauto.
Qed.

Lemma withDefaultType_fields (creds : symbl.Credentials) :
  symbl.AppId (symbl.withDefaultType creds) = symbl.AppId creds
  /\ symbl.AppSecret (symbl.withDefaultType creds) = symbl.AppSecret creds
  /\ symbl.Type_ (symbl.withDefaultType creds) <> EmptyString.
Proof.
  unfold symbl.withDefaultType.
  destruct (String.eqb_spec (symbl.Type_ creds) EmptyString) as [Ht | Ht].
  - repeat split. discriminate.
  - repeat split. exact Ht.
Qed.

Lemma withDefaultType_again (creds : symbl.Credentials) :
  symbl.withDefaultType (symbl.withDefaultType creds)
    = symbl.withDefaultType creds.
Proof.
  destruct (withDefaultType_fields creds) as (_ & _ & Ht).
  apply String.eqb_neq in Ht.
  unfold symbl.withDefaultType at 1. rewrite Ht. reflexivity.
Qed.

(** Valid credentials and a request that can be built: the authentication
    request is sent, whatever comes back. *)
Lemma NewWithCreds_sent E creds w :
  symbl.Struct creds = None ->
  NewRequestError E "POST" (AuthURI E) = None ->
  snd (symbl.NewWithCreds E creds w)
    = w ++ [EvDo IntoAuthResp None
              (symbl.authRequest E (symbl.withDefaultType creds))].
Proof.
  intros Hv Hr.
  unfold symbl.NewWithCreds, bind, rest_DoAuth, time_Now, ret.
  rewrite Hv, Hr. cbn [rest.Authorization rest.New].
  destruct (DoAuth E _) as [[err|] stored]; [reflexivity|].
  destruct (String.eqb _ _); reflexivity.
Qed.

(** What a successful [NewWithCreds] tells about its input and its client. *)
Lemma NewWithCreds_inl_facts E creds w c w' :
  symbl.NewWithCreds E creds w = (inl c, w') ->
  symbl.Struct creds = None
  /\ NewRequestError E "POST" (AuthURI E) = None
  /\ symbl.creds c = symbl.withDefaultType creds
  /\ exists token,
       rest.Authorization (symbl.restClient c) = Some token
       /\ rest.Token token <> EmptyString.
Proof.
  unfold symbl.NewWithCreds, bind, rest_DoAuth, time_Now, ret.
  destruct (symbl.Struct creds); [discriminate|].
  destruct (NewRequestError E "POST" (AuthURI E)); [discriminate|].
  cbn [rest.Authorization rest.New].
  destruct (DoAuth E _) as [[err|] stored]; [discriminate|].
  destruct (String.eqb_spec
              (AccessToken (assign stored
                 {| AccessToken := EmptyString; ExpiresIn := 0 |}))
              EmptyString) as [Ht | Ht]; [discriminate|].
  intros H. injection H as <- _.
  repeat split. eexists. split; [reflexivity | exact Ht].
Qed.

(** X7.  The client [NewWithCreds] returns keeps credentials with which
    every later [NewWithCreds], as [Do] runs it on a 401, passes validation
    and sends the very request of the first login: same endpoint, same
    body. *)
Theorem reauthentication_repeats_the_login
    (E : Env) (creds : symbl.Credentials) (w : World)
    (c : symbl.Client) (w' : World) :
  symbl.NewWithCreds E creds w = (inl c, w') ->
  let login :=
    EvDo IntoAuthResp None (symbl.authRequest E (symbl.withDefaultType creds)) in
  w' = w ++ [login]
  /\ symbl.Struct (symbl.creds c) = None
  /\ forall later, snd (symbl.NewWithCreds E (symbl.creds c) later)
                     = later ++ [login].
Proof.
  intros Hnew login.
  destruct (NewWithCreds_inl_facts _ _ _ _ _ Hnew) as (Hv & Hr & Hc & _).
  destruct (NewWithCreds_inl _ _ _ _ _ Hnew) as [Hw _].
  assert (Hv' : symbl.Struct (symbl.creds c) = None).
  { rewrite Hc. apply Struct_valid.
    destruct (withDefaultType_fields creds) as (-> & -> & _).
    apply Struct_valid, Hv. }
  split; [exact Hw|]. split; [exact Hv'|].
  intros later. rewrite (NewWithCreds_sent E _ later Hv' Hr).
  rewrite Hc, withDefaultType_again. reflexivity.
Qed.

(** X7, on the scripted server. *)
Lemma reauthentication_repeats_the_login_witness :
  let E := mock.env [] [mock.granted "abc" 60; mock.granted "def" 60] [] in
  let login :=
    EvDo IntoAuthResp None
      (symbl.authRequest E (symbl.withDefaultType mock.creds)) in
  exists c,
    symbl.NewWithCreds E mock.creds [] = (inl c, [login])
    /\ snd (symbl.NewWithCreds E (symbl.creds c) [login; EvSleep RetryDelay])
       = [login; EvSleep RetryDelay; login].
Proof.
  intros E login.
  destruct (symbl.NewWithCreds E mock.creds []) as [[c | err] w'] eqn:Hnew;
    [|vm_compute in Hnew; discriminate].
  destruct (reauthentication_repeats_the_login E mock.creds [] c w' Hnew)
    as (Hw & _ & Hlater).
  exists c. split.
  - rewrite Hw. reflexivity.
  - apply (Hlater [login; EvSleep RetryDelay]).
Defined.

(** X8.  A client returned by [NewWithCreds] holds a token that is not
    empty and credentials none of whose three fields is empty; the id and
    the secret are the ones given. *)
Theorem NewWithCreds_client_is_complete
    (E : Env) (creds : symbl.Credentials) (w : World)
    (c : symbl.Client) (w' : World) :
  symbl.NewWithCreds E creds w = (inl c, w') ->
  (exists token,
     rest.Authorization (symbl.restClient c) = Some token
     /\ rest.Token token <> EmptyString)
  /\ symbl.Type_ (symbl.creds c) <> EmptyString
  /\ symbl.AppId (symbl.creds c) = symbl.AppId creds
  /\ symbl.AppSecret (symbl.creds c) = symbl.AppSecret creds
  /\ symbl.AppId creds <> EmptyString
  /\ symbl.AppSecret creds <> EmptyString.
Proof.
  intros Hnew.
  destruct (NewWithCreds_inl_facts _ _ _ _ _ Hnew) as (Hv & _ & Hc & Htok).
  destruct (withDefaultType_fields creds) as (Hi & Hs & Ht).
  apply Struct_valid in Hv. destruct Hv as [Hid Hsecret].
  rewrite Hc. repeat split; assumption.
Qed.

(** X8, on the scripted server. *)
Lemma NewWithCreds_client_is_complete_witness :
  let E := mock.env [] [mock.granted "abc" 60] [] in
  exists c,
    fst (symbl.NewWithCreds E mock.creds []) = inl c
    /\ symbl.Type_ (symbl.creds c) <> EmptyString.
Proof.
  intros E.
  destruct (symbl.NewWithCreds E mock.creds []) as [[c | err] w'] eqn:Hnew;
    [|vm_compute in Hnew; discriminate].
  exists c. split; [reflexivity|].
  apply (NewWithCreds_client_is_complete E mock.creds [] c w' Hnew).
Defined.

(** X9.  The credentials are valid and the transport answers the
    authentication request with an error, a status error included.  Then
    [NewWithCreds] returns that very error and no client after the one
    request: it does not retry. *)
Theorem NewWithCreds_returns_transport_error
    (E : Env) (creds : symbl.Credentials) (w : World)
    (err : error) (stored : option authResp) :
  let login :=
    EvDo IntoAuthResp None (symbl.authRequest E (symbl.withDefaultType creds)) in
  symbl.Struct creds = None ->
  NewRequestError E "POST" (AuthURI E) = None ->
  DoAuth E (w ++ [login]) = (Some err, stored) ->
  symbl.NewWithCreds E creds w = (inr err, w ++ [login]).
Proof.
  intros login Hv Hr Hd.
  exact (NewWithCreds_transport_error E creds w Hv Hr err stored Hd).
Qed.

(** X9, on the scripted server: the endpoint answers 401. *)
Lemma NewWithCreds_returns_transport_error_witness :
  let E := mock.env [] [(Some (mock.status 401 "401 Unauthorized"), None)] [] in
  symbl.NewWithCreds E mock.creds []
    = (inr (mock.status 401 "401 Unauthorized"),
       [EvDo IntoAuthResp None
          (symbl.authRequest E (symbl.withDefaultType mock.creds))]).
Proof.
  intros E.
  apply (NewWithCreds_returns_transport_error E mock.creds []
           (mock.status 401 "401 Unauthorized") None); reflexivity.
Defined.

(** X10.  Valid credentials whose [Type] is not empty are sent with that
    type: the default replaces an empty type only.  The body holds the three
    fields as [json.Marshal] encodes them, bytes that are not valid UTF-8
    replaced by U+FFFD, and so the fields themselves when they are valid
    UTF-8. *)
Theorem NewWithCreds_keeps_given_type
    (E : Env) (creds : symbl.Credentials) (w : World) :
  symbl.Type_ creds <> EmptyString ->
  symbl.Struct creds = None ->
  NewRequestError E "POST" (AuthURI E) = None ->
  let sent (doc : json.Value) :=
    snd (symbl.NewWithCreds E creds w)
      = w ++ [EvDo IntoAuthResp None
                {| http.Method := "POST";
                   http.URL := AuthURI E;
                   http.ReqBody := http.JSONBody doc |}] in
  sent (json.Obj
          [ ("type", json.Str (json.text (symbl.Type_ creds)));
            ("appId", json.Str (json.text (symbl.AppId creds)));
            ("appSecret", json.Str (json.text (symbl.AppSecret creds))) ])
  /\ (utf8.ValidString (symbl.Type_ creds) = true ->
      utf8.ValidString (symbl.AppId creds) = true ->
      utf8.ValidString (symbl.AppSecret creds) = true ->
      sent (json.Obj
              [ ("type", json.Str (symbl.Type_ creds));
                ("appId", json.Str (symbl.AppId creds));
                ("appSecret", json.Str (symbl.AppSecret creds)) ])).
Proof.
  intros Ht Hv Hr sent.
  assert (Hsent : sent (json.Obj
            [ ("type", json.Str (json.text (symbl.Type_ creds)));
              ("appId", json.Str (json.text (symbl.AppId creds)));
              ("appSecret", json.Str (json.text (symbl.AppSecret creds))) ])).
  { unfold sent. rewrite (NewWithCreds_sent E creds w Hv Hr).
    unfold symbl.withDefaultType. apply String.eqb_neq in Ht. rewrite Ht.
    reflexivity. }
  split; [exact Hsent|].
  intros Vt Vid Vsecret.
  rewrite (text_of_valid _ Vt), (text_of_valid _ Vid),
    (text_of_valid _ Vsecret) in Hsent.
  exact Hsent.
Qed.

(** X10, on the scripted server: credentials of type user. *)
Lemma NewWithCreds_keeps_given_type_witness :
  let E := mock.env [] [mock.granted "abc" 60] [] in
  snd (symbl.NewWithCreds E
         {| symbl.Type_ := "user"; symbl.AppId := "id";
            symbl.AppSecret := "secret" |} [])
    = [EvDo IntoAuthResp None
         {| http.Method := "POST";
            http.URL := AuthURI E;
            http.ReqBody :=
              http.JSONBody
                (json.Obj [ ("type", json.Str "user");
                            ("appId", json.Str "id");
                            ("appSecret", json.Str "secret") ]) |}].
Proof.
  intros E.
  destruct (NewWithCreds_keeps_given_type E
              {| symbl.Type_ := "user"; symbl.AppId := "id";
                 symbl.AppSecret := "secret" |} []) as [_ Hvalid].
  - discriminate.
  - reflexivity.
  - reflexivity.
  - apply Hvalid; reflexivity.
Defined.

(** X11.  With [APP_ID] and [APP_SECRET] both set and not empty, [New] is
    [NewWithCreds] on these two values with an empty type, and so logs in
    with type application and the id and the secret of the environment as
    [json.Marshal] encodes them: bytes that are not valid UTF-8 replaced by
    U+FFFD, the two values themselves when they are valid UTF-8. *)
Theorem New_logs_in_from_the_environment (E : Env) (w : World) :
  Getenv E "APP_ID" <> EmptyString ->
  Getenv E "APP_SECRET" <> EmptyString ->
  NewRequestError E "POST" (AuthURI E) = None ->
  let sent (appId appSecret : string) :=
    snd (symbl.New E w)
      = w ++ [EvDo IntoAuthResp None
                {| http.Method := "POST";
                   http.URL := AuthURI E;
                   http.ReqBody :=
                     http.JSONBody
                       (json.Obj [ ("type", json.Str "application");
                                   ("appId", json.Str appId);
                                   ("appSecret", json.Str appSecret) ]) |}] in
  symbl.New E w
    = symbl.NewWithCreds E
        {| symbl.Type_ := EmptyString;
           symbl.AppId := Getenv E "APP_ID";
           symbl.AppSecret := Getenv E "APP_SECRET" |} w
  /\ sent (json.text (Getenv E "APP_ID")) (json.text (Getenv E "APP_SECRET"))
  /\ (utf8.ValidString (Getenv E "APP_ID") = true ->
      utf8.ValidString (Getenv E "APP_SECRET") = true ->
      sent (Getenv E "APP_ID") (Getenv E "APP_SECRET")).
Proof.
  intros Hid Hsecret Hr sent.
  assert (Hnew : symbl.New E w
                 = symbl.NewWithCreds E
                     {| symbl.Type_ := EmptyString;
                        symbl.AppId := Getenv E "APP_ID";
                        symbl.AppSecret := Getenv E "APP_SECRET" |} w).
  { unfold symbl.New. apply String.eqb_neq in Hid, Hsecret.
    rewrite Hid, Hsecret. reflexivity. }
  assert (Hsent : sent (json.text (Getenv E "APP_ID"))
                       (json.text (Getenv E "APP_SECRET"))).
  { unfold sent. rewrite Hnew, NewWithCreds_sent; [reflexivity | | exact Hr].
    apply Struct_valid. split; assumption. }
  split; [exact Hnew|]. split; [exact Hsent|].
  intros Vid Vsecret.
  rewrite (text_of_valid _ Vid), (text_of_valid _ Vsecret) in Hsent.
  exact Hsent.
Qed.

(** X11, on the scripted server. *)
Lemma New_logs_in_from_the_environment_witness :
  let E := mock.env [("APP_ID", "id"); ("APP_SECRET", "secret")]
             [mock.granted "abc" 60] [] in
  snd (symbl.New E [])
    = [EvDo IntoAuthResp None
         {| http.Method := "POST";
            http.URL := AuthURI E;
            http.ReqBody :=
              http.JSONBody
                (json.Obj [ ("type", json.Str "application");
                            ("appId", json.Str "id");
                            ("appSecret", json.Str "secret") ]) |}].
Proof.
  intros E.
  destruct (New_logs_in_from_the_environment E []) as (_ & _ & Hvalid).
  - discriminate.
  - discriminate.
  - reflexivity.
  - apply Hvalid; reflexivity.
Defined.

(** X12.  Whatever its input and whatever the answer, [NewWithCreds] sends at
    most one request, the authentication request, never sleeps and never
    sends an endpoint request; it has sent that one request whenever it
    returns a client. *)
Theorem NewWithCreds_sends_at_most_one_request
    (E : Env) (creds : symbl.Credentials) (w : World) :
  let run := symbl.NewWithCreds E creds w in
  exists suffix,
    snd run = w ++ suffix
    /\ (authentications suffix <= 1)%nat
    /\ attempts suffix = 0%nat
    /\ sleeps suffix = 0%nat
    /\ ((exists c, fst run = inl c) -> authentications suffix = 1%nat).
Proof.
  cbv zeta.
  pose proof (NewWithCreds_history E creds w) as Hh.
  destruct (symbl.NewWithCreds E creds w) as [[c | err] w'] eqn:Hnew;
    cbn [fst snd] in *.
  - destruct (NewWithCreds_inl _ _ _ _ _ Hnew) as [-> _].
    eexists. split; [reflexivity|]. cbn. repeat split; lia.
  - destruct Hh as [-> | ->].
    + exists []. rewrite app_nil_r. cbn. repeat split; try lia.
      intros [c Hc]. discriminate Hc.
    + eexists. split; [reflexivity|]. cbn. repeat split; lia.
Qed.

(** X12, on the scripted server. *)
Lemma NewWithCreds_sends_at_most_one_request_witness :
  let E := mock.env [] [mock.granted "abc" 60] [] in
  authentications (snd (symbl.NewWithCreds E mock.creds [])) = 1%nat.
Proof.
  intros E.
  destruct (NewWithCreds_sends_at_most_one_request E mock.creds [])
    as (suffix & Hw & _ & _ & _ & Hone).
  rewrite Hw. cbn [app]. apply Hone.
  eexists. reflexivity.
Defined.

(** ** The extension of a path *)

Lemma hasPrefix_dot (s : string) :
  strings.hasPrefix "." s
    = match s with
      | String b _ => Ascii.eqb "." b
      | EmptyString => false
      end.
Proof.
  destruct s as [|b s']; [reflexivity|].
  cbn [strings.hasPrefix]. destruct s'; apply andb_true_r.
Qed.

Lemma lastIndexFrom_no_dot (s : string) :
  strings.hasByte "." s = false ->
  forall i, strings.lastIndexFrom i s "." = -1.
Proof.
  induction s as [|b s' IH]; intros Hs i.
  - reflexivity.
  - cbn [strings.hasByte] in Hs. apply orb_false_iff in Hs.
    destruct Hs as [Hb Hs'].
    cbn [strings.lastIndexFrom]. rewrite (IH Hs'). cbn [Z.leb Z.compare].
    rewrite hasPrefix_dot, Ascii.eqb_sym, Hb. reflexivity.
Qed.

Lemma len_String (b : ascii) (s : string) :
  strings.len (String b s) = 1 + strings.len s.
Proof. unfold strings.len. cbn [String.length]. lia. Qed.

Lemma len_nonneg (s : string) : 0 <= strings.len s.
Proof. unfold strings.len. lia. Qed.

Lemma lastIndexFrom_last_dot (a b : string) :
  strings.hasByte "." b = false ->
  forall i, 0 <= i ->
  strings.lastIndexFrom i (a ++ String "." b) "." = i + strings.len a.
Proof.
  intros Hb. induction a as [|ch a' IH]; intros i Hi.
  - cbn [append strings.lastIndexFrom].
    rewrite (lastIndexFrom_no_dot b Hb). cbn [Z.leb Z.compare].
    rewrite hasPrefix_dot, Ascii.eqb_refl. unfold strings.len. cbn. lia.
  - cbn [append strings.lastIndexFrom]. rewrite IH by lia.
    pose proof (len_nonneg a') as Hlen.
    destruct (Z.leb_spec 0 (i + 1 + strings.len a')) as [_ | Hneg]; [|lia].
    rewrite len_String. lia.
Qed.

Lemma substring_all (s : string) : substring 0 (String.length s) s = s.
Proof.
  induction s as [|b s' IH]; [reflexivity|].
  cbn [String.length substring]. rewrite IH. reflexivity.
Qed.

Lemma substring_after (a rest : string) :
  substring (String.length a) (String.length rest) (a ++ rest) = rest.
Proof.
  induction a as [|ch a' IH]; [apply substring_all|].
  cbn [String.length append substring]. exact IH.
Qed.

Lemma length_append (a b : string) :
  String.length (a ++ b) = (String.length a + String.length b)%nat.
Proof.
  induction a as [|ch a' IH]; [reflexivity|].
  cbn [append String.length]. rewrite IH. reflexivity.
Qed.

Lemma sliceFrom_after_dot (a b : string) :
  strings.sliceFrom (a ++ String "." b) (strings.len a + 1) = b.
Proof.
  unfold strings.sliceFrom, strings.len.
  assert (Hs : (a ++ String "." b)%string = ((a ++ ".") ++ b)%string).
  { induction a as [|ch a' IH]; [reflexivity|].
    cbn [append]. rewrite IH. reflexivity. }
  rewrite Hs. set (x := (a ++ ".")%string).
  assert (Hn : Z.to_nat (Z.of_nat (String.length a) + 1) = String.length x).
  { unfold x. rewrite length_append. cbn [String.length]. lia. }
  rewrite Hn, length_append.
  replace (String.length x + String.length b - String.length x)%nat
    with (String.length b) by lia.
  apply substring_after.
Qed.

Lemma LastIndex_last_dot (a b : string) :
  strings.hasByte "." b = false ->
  strings.LastIndex (a ++ String "." b) "." = strings.len a.
Proof.
  intros Hb. unfold strings.LastIndex.
  rewrite lastIndexFrom_last_dot by (assumption || lia). lia.
Qed.

(** A string with a dot splits at its last dot. *)
Lemma split_at_last_dot (s : string) :
  strings.hasByte "." s = true ->
  exists a b, s = (a ++ String "." b)%string /\ strings.hasByte "." b = false.
Proof.
  induction s as [|ch s' IH]; intros Hs; [discriminate|].
  destruct (strings.hasByte "." s') eqn:Hs'.
  - destruct (IH eq_refl) as (a & b & -> & Hb).
    exists (String ch a), b. split; [reflexivity | exact Hb].
  - cbn [strings.hasByte] in Hs. rewrite Hs', orb_false_r in Hs.
    apply Ascii.eqb_eq in Hs. subst ch.
    exists EmptyString, s'. split; [reflexivity | exact Hs'].
Qed.

(** X13.  On a path made of [a], a dot and a dot-free [b],
    [strings.LastIndex] finds the dot after [a] and the slice that follows
    it is [b]: the extension [GetSummaryUI] computes is what follows the
    last dot of the path, directories included. *)
Theorem extension_is_after_the_last_dot (a b : string) :
  strings.hasByte "." b = false ->
  strings.LastIndex (a ++ String "." b) "." = strings.len a
  /\ strings.sliceFrom (a ++ String "." b)
       (strings.LastIndex (a ++ String "." b) "." + 1) = b.
Proof.
  intros Hb.
  pose proof (LastIndex_last_dot a b Hb) as Hpos.
  split; [exact Hpos|]. rewrite Hpos. apply sliceFrom_after_dot.
Qed.

(** X13, on a dotted directory: the extension runs over the slash. *)
Lemma extension_is_after_the_last_dot_witness :
  strings.sliceFrom "/v1.2/recording"
    (strings.LastIndex "/v1.2/recording" "." + 1) = "2/recording".
Proof.
  apply (extension_is_after_the_last_dot "/v1" "2/recording"). reflexivity.
Defined.

(** X14.  [strings.LastIndex(s, ".")] is -1 exactly when [s] has no dot, and
    a valid offset into [s] otherwise. *)
Theorem LastIndex_dot_none (s : string) :
  (strings.LastIndex s "." = -1 <-> strings.hasByte "." s = false)
  /\ (strings.LastIndex s "." <> -1 ->
      0 <= strings.LastIndex s "." < strings.len s).
Proof.
  assert (Hyes : strings.hasByte "." s = true ->
                 0 <= strings.LastIndex s "." < strings.len s).
  { intros Hs. destruct (split_at_last_dot s Hs) as (a & b & -> & Hb).
    rewrite (LastIndex_last_dot a b Hb).
    unfold strings.len. rewrite length_append. cbn [String.length]. lia. }
  split; [split|].
  - intros Hnone. destruct (strings.hasByte "." s) eqn:Hs; [|reflexivity].
    specialize (Hyes eq_refl). lia.
  - intros Hs. apply lastIndexFrom_no_dot. exact Hs.
  - intros Hsome. destruct (strings.hasByte "." s) eqn:Hs.
    + apply Hyes. reflexivity.
    + exfalso. apply Hsome. apply lastIndexFrom_no_dot. exact Hs.
Qed.

(** X14, on a path without extension. *)
Lemma LastIndex_dot_none_witness :
  strings.LastIndex "/recordings/call" "." = -1.
Proof.
  apply (LastIndex_dot_none "/recordings/call"). reflexivity.
Defined.

(** ** More on [GetSummaryUI] *)

(** [GetSummaryUI] once its checks have passed: the switch on the extension
    and the video request below it. *)
Lemma GetSummaryUI_switch E c conversationId uri Path w :
  conversationId <> EmptyString ->
  uri <> EmptyString ->
  ParsePath E uri = inl Path ->
  strings.LastIndex Path "." <> -1 ->
  let extension := strings.sliceFrom Path (strings.LastIndex Path "." + 1) in
  let video :=
    async.GetVideoSummaryUI E c conversationId
      {| interfaces.VideoName := "video-summary"; interfaces.VideoURL := uri |} in
  let audio :=
    async.GetAudioSummaryUI E c conversationId
      {| interfaces.AudioName := "audio-summary"; interfaces.AudioURL := uri |} in
  async.GetSummaryUI E c conversationId uri w
    = (if String.eqb extension (AudioTypeMP3 E) then video
       else if String.eqb extension (AudioTypeMpeg E) then video
       else if String.eqb extension (AudioTypeWav E) then audio
       else video) w.
Proof.
  intros Hc Huri Hparse Hdot extension video audio.
  apply String.eqb_neq in Hc.
  assert (Hlen : (strings.len uri =? 0) = false).
  { apply Z.eqb_neq. intros H. apply Huri, len_zero, H. }
  apply Z.eqb_neq in Hdot.
  unfold async.GetSummaryUI. rewrite Hc, Hlen, Hparse, Hdot. reflexivity.
Qed.

(** X15.  The URI is not empty and its path ends in a dot and a dot-free
    [ext].  Then [GetSummaryUI] is [GetAudioSummaryUI] on the audio-summary
    request when [ext] is [AudioTypeWav] and neither [AudioTypeMP3] nor
    [AudioTypeMpeg], and [GetVideoSummaryUI] on the video-summary request for
    every other [ext]. *)
Theorem GetSummaryUI_by_suffix
    (E : Env) (c : symbl.Client) (conversationId uri stem ext : string)
    (w : World) :
  uri <> EmptyString ->
  ParsePath E uri = inl (stem ++ String "." ext)%string ->
  strings.hasByte "." ext = false ->
  async.GetSummaryUI E c conversationId uri w
    = if negb (String.eqb ext (AudioTypeMP3 E))
         && negb (String.eqb ext (AudioTypeMpeg E))
         && String.eqb ext (AudioTypeWav E)
      then async.GetAudioSummaryUI E c conversationId
             {| interfaces.AudioName := "audio-summary";
                interfaces.AudioURL := uri |} w
      else async.GetVideoSummaryUI E c conversationId
             {| interfaces.VideoName := "video-summary";
                interfaces.VideoURL := uri |} w.
Proof.
  intros Huri Hparse Hext.
  destruct (String.eqb_spec conversationId EmptyString) as [-> | Hc].
  - destruct (_ && _); reflexivity.
  - pose proof (LastIndex_last_dot stem ext Hext) as Hpos.
    rewrite (GetSummaryUI_switch E c conversationId uri _ w Hc Huri Hparse).
    + rewrite Hpos, sliceFrom_after_dot.
      destruct (String.eqb ext (AudioTypeMP3 E)); [reflexivity|].
      destruct (String.eqb ext (AudioTypeMpeg E)); [reflexivity|].
      destruct (String.eqb ext (AudioTypeWav E)); reflexivity.
    + rewrite Hpos. pose proof (len_nonneg stem). lia.
Qed.

(** X15, on the scripted server: wav is audio, the upper-case WAV is not. *)
Lemma GetSummaryUI_by_suffix_witness :
  let E := mock.env [] [] [(None, Some (json.Str "ok"))] in
  async.GetSummaryUI E mock.client "42" "/recordings/call.wav" []
    = async.GetAudioSummaryUI E mock.client "42"
        {| interfaces.AudioName := "audio-summary";
           interfaces.AudioURL := "/recordings/call.wav" |} []
  /\ async.GetSummaryUI E mock.client "42" "/recordings/call.WAV" []
     = async.GetVideoSummaryUI E mock.client "42"
         {| interfaces.VideoName := "video-summary";
            interfaces.VideoURL := "/recordings/call.WAV" |} [].
Proof.
  intros E. split.
  - apply (GetSummaryUI_by_suffix E mock.client "42" "/recordings/call.wav"
             "/recordings/call" "wav" []).
    + discriminate.
    + reflexivity.
    + reflexivity.
  - apply (GetSummaryUI_by_suffix E mock.client "42" "/recordings/call.WAV"
             "/recordings/call" "WAV" []).
    + discriminate.
    + reflexivity.
    + reflexivity.
Defined.

(** X16.  [GetSummaryUI] fails without sending anything, the client
    unchanged: with [ErrInvalidInput] on an empty conversation id; with the
    error of [url.Parse] on a URI it rejects; with [ErrInvalidURIExtension]
    on a URI whose path has no dot. *)
Theorem GetSummaryUI_rejects
    (E : Env) (c : symbl.Client) (conversationId uri : string) (w : World) :
  (conversationId = EmptyString ->
   async.GetSummaryUI E c conversationId uri w = ((c, inr ErrInvalidInput), w))
  /\ (forall err,
        conversationId <> EmptyString ->
        uri <> EmptyString ->
        ParsePath E uri = inr err ->
        async.GetSummaryUI E c conversationId uri w = ((c, inr err), w))
  /\ (forall Path,
        conversationId <> EmptyString ->
        uri <> EmptyString ->
        ParsePath E uri = inl Path ->
        strings.hasByte "." Path = false ->
        async.GetSummaryUI E c conversationId uri w
          = ((c, inr ErrInvalidURIExtension), w)).
Proof.
  assert (Hlen : uri <> EmptyString -> (strings.len uri =? 0) = false).
  { intros Huri. apply Z.eqb_neq. intros H. apply Huri, len_zero, H. }
  split; [|split].
  - intros ->. reflexivity.
  - intros err Hc Huri Hparse. apply String.eqb_neq in Hc.
    unfold async.GetSummaryUI. rewrite Hc, (Hlen Huri), Hparse. reflexivity.
  - intros Path Hc Huri Hparse Hdot. apply String.eqb_neq in Hc.
    unfold async.GetSummaryUI. rewrite Hc, (Hlen Huri), Hparse.
    unfold strings.LastIndex. rewrite (lastIndexFrom_no_dot Path Hdot).
    reflexivity.
Qed.

(** X16, on the scripted server: a recording without extension. *)
Lemma GetSummaryUI_rejects_witness :
  let E := mock.env [] [] [(None, Some (json.Str "ok"))] in
  async.GetSummaryUI E mock.client "42" "/recordings/call" []
    = ((mock.client, inr ErrInvalidURIExtension), [])
  /\ async.GetSummaryUI E mock.client EmptyString "/recordings/call.wav" []
     = ((mock.client, inr ErrInvalidInput), []).
Proof.
  intros E.
  split.
  - destruct (GetSummaryUI_rejects E mock.client "42" "/recordings/call" [])
      as (_ & _ & Hnodot).
    apply (Hnodot "/recordings/call").
    + discriminate.
    + discriminate.
    + reflexivity.
    + reflexivity.
  - destruct (GetSummaryUI_rejects E mock.client EmptyString
                "/recordings/call.wav" []) as (Hempty & _).
    apply Hempty. reflexivity.
Defined.

(** X17.  Without a URI, [GetSummaryUI] is [GetTextSummaryUI] on the request
    named verbose-text-summary; once the conversation id is not empty and
    the request can be built, what it sends first is that text request to
    the summary URI of the conversation. *)
Theorem GetSummaryUI_without_uri
    (E : Env) (c : symbl.Client) (conversationId : string) (w : World) :
  let request := {| interfaces.TextName := "verbose-text-summary" |} in
  async.GetSummaryUI E c conversationId EmptyString w
    = async.GetTextSummaryUI E c conversationId request w
  /\ (conversationId <> EmptyString ->
      NewRequestError E "POST" (GetAsyncAPI E (SummaryURI E) [conversationId])
        = None ->
      exists suffix,
        snd (async.GetSummaryUI E c conversationId EmptyString w)
          = w ++ EvDo IntoResult (rest.Authorization (symbl.restClient c))
                   {| http.Method := "POST";
                      http.URL := GetAsyncAPI E (SummaryURI E) [conversationId];
                      http.ReqBody := http.TextSummaryBody request |}
                 :: suffix).
Proof.
  intros request.
  assert (Heq : async.GetSummaryUI E c conversationId EmptyString w
                = async.GetTextSummaryUI E c conversationId request w).
  { unfold async.GetSummaryUI.
    destruct (String.eqb conversationId EmptyString) eqn:Hc.
    - unfold async.GetTextSummaryUI, async.postSummary. rewrite Hc.
      reflexivity.
    - reflexivity. }
  split; [exact Heq|].
  intros Hc Hreq. rewrite Heq. apply postSummary_request; assumption.
Qed.

(** X17, on the scripted server. *)
Lemma GetSummaryUI_without_uri_witness :
  let E := mock.env [] [] [(None, Some (json.Str "ok"))] in
  let request := {| interfaces.TextName := "verbose-text-summary" |} in
  exists suffix,
    snd (async.GetSummaryUI E mock.client "42" EmptyString [])
      = [] ++ EvDo IntoResult
                (rest.Authorization (symbl.restClient mock.client))
                {| http.Method := "POST";
                   http.URL := GetAsyncAPI E (SummaryURI E) ["42"];
                   http.ReqBody := http.TextSummaryBody request |}
              :: suffix.
Proof.
  intros E request.
  apply (GetSummaryUI_without_uri E mock.client "42" []).
  - discriminate.
  - reflexivity.
Defined.

(** ** More on the endpoints *)

(** The tail of an endpoint starts by sending the request. *)
Lemma checkTheStatus_request E c req w :
  exists suffix,
    snd (async.checkTheStatus E c req w)
      = w ++ EvDo IntoResult (rest.Authorization (symbl.restClient c)) req
             :: suffix.
Proof.
  unfold async.checkTheStatus, bind.
  destruct (Do_first_request E c req (ZeroResult E) w) as [suffix Hs].
  destruct (symbl.Do E c req (ZeroResult E) w) as [[[c' result] err] w'].
  cbn [snd] in Hs. subst w'. exists suffix.
  destruct err as [[Resp| Resp | | | | | |]|]; try reflexivity.
  destruct (negb _); reflexivity.
Qed.

(** The tail of an endpoint returns an error only for a [*symbl.StatusError]
    from [Do] whose status is not 200. *)
Lemma checkTheStatus_error E c req w c' e w' :
  async.checkTheStatus E c req w = ((c', inr e), w') ->
  exists Resp result,
    e = SymblStatusError Resp
    /\ http.StatusCode Resp <> http.StatusOK
    /\ symbl.Do E c req (ZeroResult E) w = ((c', result, Some e), w').
Proof.
  unfold async.checkTheStatus, bind.
  destruct (symbl.Do E c req (ZeroResult E) w) as [[[c1 result] err] w1].
  destruct err as [[Resp| Resp | | | | | |]|]; try discriminate.
  destruct (Z.eqb_spec (http.StatusCode Resp) http.StatusOK) as [Hok | Hnot];
    cbn [negb]; [discriminate|].
  intros H. injection H as <- <- <-.
  exists Resp, result. repeat split. exact Hnot.
Qed.

(** X18.  An endpoint called with an empty conversation id, or an empty
    bookmark id where it takes one, returns [ErrInvalidInput] and sends
    nothing; the client is unchanged. *)
Theorem endpoints_reject_empty_ids
    (E : Env) (B : BookmarksEnv) (c : symbl.Client) (w : World) :
  let rejected : async.Reply E * World := ((c, inr ErrInvalidInput), w) in
  async.GetBookmarks E c EmptyString w = rejected
  /\ (forall bookmarkId,
        async.GetBookmarkById E B c EmptyString bookmarkId w = rejected)
  /\ (forall conversationId,
        async.GetBookmarkById E B c conversationId EmptyString w = rejected)
  /\ (forall bookmarkId,
        async.GetSummaryOfBookmark E B c EmptyString bookmarkId w = rejected)
  /\ (forall conversationId,
        async.GetSummaryOfBookmark E B c conversationId EmptyString w = rejected)
  /\ (forall filters,
        async.GetSummaryOfBookmarks E B c EmptyString filters w = rejected)
  /\ (forall request,
        async.GetTextSummaryUI E c EmptyString request w = rejected)
  /\ (forall request,
        async.GetAudioSummaryUI E c EmptyString request w = rejected)
  /\ (forall request,
        async.GetVideoSummaryUI E c EmptyString request w = rejected).
Proof.
  intros rejected. repeat split; try reflexivity.
  - intros conversationId. unfold async.GetBookmarkById.
    destruct (String.eqb conversationId EmptyString); reflexivity.
  - intros conversationId. unfold async.GetSummaryOfBookmark.
    destruct (String.eqb conversationId EmptyString); reflexivity.
Qed.

(** X19.  [CreateBookmark] and [UpdateBookmark] check the request before
    the ids: a request the validator rejects gives the validator's error
    whatever the ids are; then empty ids give [ErrInvalidInput]; then an
    error of [json.Marshal] is returned.  Nothing is sent in any of these
    cases. *)
Theorem bookmark_requests_are_checked_first
    (E : Env) (B : BookmarksEnv) (c : symbl.Client)
    (conversationId bookmarkId : string) (request : BookmarkRequest B)
    (w : World) :
  (forall err,
     StructBookmarkRequest B request = Some err ->
     async.CreateBookmark E B c conversationId request w = ((c, inr err), w)
     /\ async.UpdateBookmark E B c conversationId bookmarkId request w
        = ((c, inr err), w))
  /\ (StructBookmarkRequest B request = None ->
      conversationId = EmptyString \/ bookmarkId = EmptyString ->
      async.UpdateBookmark E B c conversationId bookmarkId request w
        = ((c, inr ErrInvalidInput), w))
  /\ (StructBookmarkRequest B request = None ->
      conversationId = EmptyString ->
      async.CreateBookmark E B c conversationId request w
        = ((c, inr ErrInvalidInput), w))
  /\ (forall err,
        StructBookmarkRequest B request = None ->
        conversationId <> EmptyString ->
        bookmarkId <> EmptyString ->
        MarshalBookmarkRequest B request = inr err ->
        async.CreateBookmark E B c conversationId request w = ((c, inr err), w)
        /\ async.UpdateBookmark E B c conversationId bookmarkId request w
           = ((c, inr err), w)).
Proof.
  unfold async.CreateBookmark, async.UpdateBookmark.
  split; [|split; [|split]].
  - intros err ->. split; reflexivity.
  - intros -> [-> | ->]; [reflexivity|].
    destruct (String.eqb conversationId EmptyString); reflexivity.
  - intros -> ->. reflexivity.
  - intros err -> Hc Hb ->. apply String.eqb_neq in Hc, Hb.
    rewrite Hc, Hb. split; reflexivity.
Qed.

(** X19, on the scripted server: an empty description and an empty
    conversation id give the validator's error. *)
Lemma bookmark_requests_are_checked_first_witness :
  let E := mock.env [] [] [(None, Some (json.Str "ok"))] in
  async.CreateBookmark E mock.bookmarks mock.client EmptyString EmptyString []
    = ((mock.client, inr (ValidationErrors ["Description"])), []).
Proof.
  intros E.
  destruct (bookmark_requests_are_checked_first E mock.bookmarks mock.client
              EmptyString "7" EmptyString []) as (Hinvalid & _).
  apply (Hinvalid (ValidationErrors ["Description"])). reflexivity.
Defined.

(** X20.  After its own checks an endpoint returns an error only when [Do]
    returned a [*symbl.StatusError] whose status is not 200, and it returns
    that error: every other failure of [GetBookmarks] is [ErrInvalidInput]
    on an empty id or the error of [http.NewRequestWithContext], with
    nothing sent. *)
Theorem GetBookmarks_errors
    (E : Env) (c : symbl.Client) (conversationId : string) (w : World)
    (c' : symbl.Client) (e : error) (w' : World) :
  async.GetBookmarks E c conversationId w = ((c', inr e), w') ->
  let URI := GetManagementAPI E (BookmarksURI E) [conversationId] in
  (conversationId = EmptyString /\ e = ErrInvalidInput /\ c' = c /\ w' = w)
  \/ (NewRequestError E "GET" URI = Some e /\ c' = c /\ w' = w)
  \/ (exists Resp result,
        e = SymblStatusError Resp
        /\ http.StatusCode Resp <> http.StatusOK
        /\ symbl.Do E c
             {| http.Method := "GET"; http.URL := URI;
                http.ReqBody := http.NoBody |}
             (ZeroResult E) w = ((c', result, Some e), w')).
Proof.
  unfold async.GetBookmarks.
  destruct (String.eqb_spec conversationId EmptyString) as [Hc | Hc].
  - intros H. injection H as <- <- <-. left. repeat split. exact Hc.
  - destruct (NewRequestError E "GET" _) as [err|] eqn:Hr.
    + intros H. injection H as <- <- <-. right. left. repeat split.
    + intros H. right. right. apply checkTheStatus_error. exact H.
Qed.

(** X20, on a server whose transport hands out a [*symbl.StatusError]. *)
Lemma GetBookmarks_errors_witness :
  let Resp := {| http.Status := "404 Not Found"; http.StatusCode := 404;
                 http.Req := mock.request |} in
  let E := mock.env [] [] [(Some (SymblStatusError Resp), None)] in
  exists c' w',
    async.GetBookmarks E mock.client "42" [] = ((c', inr (SymblStatusError Resp)), w')
    /\ http.StatusCode Resp <> http.StatusOK.
Proof.
  intros Resp E.
  destruct (async.GetBookmarks E mock.client "42" [])
    as [[c' [r | e]] w'] eqn:Hrun; [vm_compute in Hrun; discriminate|].
  assert (He : e = SymblStatusError Resp).
  { vm_compute in Hrun. injection Hrun as _ He _. symmetry. exact He. }
  exists c', w'. split; [rewrite He; reflexivity|].
  destruct (GetBookmarks_errors E mock.client "42" [] c' e w' Hrun)
    as [(Habs & _) | [(Habs & _) | (Resp' & result & He' & Hnot & _)]].
  - discriminate Habs.
  - discriminate Habs.
  - rewrite He in He'. injection He' as <-. exact Hnot.
Defined.

(** X21.  The conversation id is not empty, the request can be built and the
    transport answers the first attempt with [nil], storing a result.  Then
    [GetBookmarks] returns that result and no error after the one GET to the
    bookmarks URI of the conversation, the client unchanged. *)
Theorem GetBookmarks_returns_the_result
    (E : Env) (c : symbl.Client) (conversationId : string) (w : World)
    (result : Result E) :
  let URI := GetManagementAPI E (BookmarksURI E) [conversationId] in
  let attempt :=
    EvDo IntoResult (rest.Authorization (symbl.restClient c))
      {| http.Method := "GET"; http.URL := URI; http.ReqBody := http.NoBody |} in
  conversationId <> EmptyString ->
  NewRequestError E "GET" URI = None ->
  DoResult E (w ++ [attempt]) = (None, Some result) ->
  async.GetBookmarks E c conversationId w = ((c, inl result), w ++ [attempt]).
Proof.
  intros URI attempt Hc Hr Hd.
  unfold async.GetBookmarks. apply String.eqb_neq in Hc. rewrite Hc.
  fold URI. rewrite Hr.
  apply checkTheStatus_returns_nil with (err := None); [|discriminate].
  unfold symbl.Do. change (Z.to_nat symbl.defaultAttemptsToReauth) with 3%nat.
  set (req := {| http.Method := "GET"; http.URL := URI;
                 http.ReqBody := http.NoBody |}) in *.
  change (w ++ [attempt]) with (issued req 1 c w) in Hd.
  rewrite (Do_from_return E req _ _ _ _ _ _ _ _ Hd) by discriminate.
  reflexivity.
Qed.

(** X21, on the scripted server. *)
Lemma GetBookmarks_returns_the_result_witness :
  let E := mock.env [] [] [(None, Some (json.Str "bookmarks"))] in
  fst (async.GetBookmarks E mock.client "42" [])
    = (mock.client, inl (json.Str "bookmarks")).
Proof.
  intros E.
  rewrite (GetBookmarks_returns_the_result E mock.client "42" []
             (json.Str "bookmarks")).
  - reflexivity.
  - discriminate.
  - reflexivity.
  - reflexivity.
Defined.

(** X22.  The first attempt of [GetBookmarks] is answered by 401, the
    re-authentication succeeds with [newClient] and the retry succeeds.
    Then [GetBookmarks] returns the result of the retry together with a
    client that holds the transport of [newClient]: the caller's next
    request goes out with the new token. *)
Theorem GetBookmarks_renews_the_session
    (E : Env) (c : symbl.Client) (conversationId : string) (w : World)
    (Resp : http.Response) (s1 : option (Result E)) (result : Result E)
    (newClient : symbl.Client) (w2 : World) :
  let URI := GetManagementAPI E (BookmarksURI E) [conversationId] in
  let req :=
    {| http.Method := "GET"; http.URL := URI; http.ReqBody := http.NoBody |} in
  let first := EvDo IntoResult (rest.Authorization (symbl.restClient c)) req in
  let retry :=
    EvDo IntoResult (rest.Authorization (symbl.restClient newClient)) req in
  conversationId <> EmptyString ->
  NewRequestError E "GET" URI = None ->
  DoResult E (w ++ [first]) = (Some (RestStatusError Resp), s1) ->
  http.StatusCode Resp = http.StatusUnauthorized ->
  symbl.NewWithCreds E (symbl.creds c) (w ++ [first]) = (inl newClient, w2) ->
  DoResult E (w2 ++ [EvSleep RetryDelay; retry]) = (None, Some result) ->
  async.GetBookmarks E c conversationId w
    = (({| symbl.restClient := symbl.restClient newClient;
           symbl.creds := symbl.creds c |}, inl result),
       w2 ++ [EvSleep RetryDelay; retry]).
Proof.
  intros URI req first retry Hc Hr D1 H401 Hnew D2.
  unfold async.GetBookmarks. apply String.eqb_neq in Hc. rewrite Hc.
  fold URI. rewrite Hr. fold req.
  apply checkTheStatus_returns_nil with (err := None); [|discriminate].
  unfold symbl.Do. change (Z.to_nat symbl.defaultAttemptsToReauth) with 3%nat.
  change (w ++ [first]) with (issued req 1 c w) in D1, Hnew.
  rewrite (Do_from_reauth E req _ _ _ _ _ _ _ _ _ _ D1 H401 Hnew).
  change (1 + 1) with 2.
  set (c2 := {| symbl.restClient := symbl.restClient newClient;
                symbl.creds := symbl.creds c |}).
  assert (E2 : w2 ++ [EvSleep RetryDelay; retry] = issued req 2 c2 w2).
  { rewrite issued_later by lia. reflexivity. }
  rewrite E2 in D2.
  rewrite (Do_from_return E req _ _ _ _ _ _ _ _ D2) by discriminate.
  rewrite <- E2. reflexivity.
Qed.

(** X22, on the scripted server: 401, a token, the bookmarks. *)
Lemma GetBookmarks_renews_the_session_witness :
  let E := mock.env [] [mock.granted "abc" 60]
             [(Some (mock.status 401 "401 Unauthorized"), None);
              (None, Some (json.Str "bookmarks"))] in
  exists c',
    fst (async.GetBookmarks E mock.client "42" [])
      = (c', inl (json.Str "bookmarks"))
    /\ exists token,
         rest.Authorization (symbl.restClient c') = Some token
         /\ rest.Token token = "abc".
Proof.
  intros E.
  set (req := {| http.Method := "GET";
                 http.URL := GetManagementAPI E (BookmarksURI E) ["42"];
                 http.ReqBody := http.NoBody |}).
  set (first := EvDo IntoResult
                  (rest.Authorization (symbl.restClient mock.client)) req).
  destruct (symbl.NewWithCreds E (symbl.creds mock.client) ([] ++ [first]))
    as [[newClient | err] w2] eqn:Hnew; [|vm_compute in Hnew; discriminate].
  assert (Hn : (newClient, w2)
               = ({| symbl.restClient :=
                       {| rest.Authorization :=
                            Some {| rest.Token := "abc";
                                    rest.ExpiresOn := 1667260860100000000 |} |};
                     symbl.creds := symbl.creds mock.client |},
                  [first;
                   EvDo IntoAuthResp None
                     (symbl.authRequest E
                        (symbl.withDefaultType (symbl.creds mock.client)))])).
  { vm_compute in Hnew. injection Hnew as Hc Hw. rewrite <- Hc, <- Hw.
    reflexivity. }
  injection Hn as Hc Hw.
  eexists. split.
  - rewrite (GetBookmarks_renews_the_session E mock.client "42" []
               {| http.Status := "401 Unauthorized"; http.StatusCode := 401;
                  http.Req := mock.request |}
               None (json.Str "bookmarks") newClient w2).
    + reflexivity.
    + discriminate.
    + reflexivity.
    + reflexivity.
    + reflexivity.
    + exact Hnew.
    + subst newClient w2. reflexivity.
  - subst newClient. eexists. split; reflexivity.
Defined.

(** ** The query of [GetSummaryOfBookmarks] and the bookmark requests *)

Lemma append_empty_r (s : string) : (s ++ EmptyString)%string = s.
Proof.
  induction s as [|b s' IH]; [reflexivity|].
  cbn [append]. rewrite IH. reflexivity.
Qed.

Lemma append_associative (a b c : string) :
  ((a ++ b) ++ c)%string = (a ++ (b ++ c))%string.
Proof.
  induction a as [|ch a' IH]; [reflexivity|].
  cbn [append]. rewrite IH. reflexivity.
Qed.

Lemma concat_cons (x : string) (xs : list string) :
  String.concat EmptyString (x :: xs)
    = (x ++ String.concat EmptyString xs)%string.
Proof.
  destruct xs as [|y ys]; cbn [String.concat].
  - rewrite append_empty_r. reflexivity.
  - reflexivity.
Qed.

(** The loop over the filters appends them one after the other. *)
Lemma fold_left_append (g : string -> string) (l : list string) :
  forall acc,
    fold_left (fun q filter => (q ++ g filter)%string) l acc
      = (acc ++ String.concat EmptyString (map g l))%string.
Proof.
  induction l as [|x xs IH]; intros acc.
  - cbn. rewrite append_empty_r. reflexivity.
  - cbn [fold_left map]. rewrite IH, concat_cons, append_associative.
    reflexivity.
Qed.

(** X23.  With a non-empty conversation id, [GetSummaryOfBookmarks] sends a
    GET whose URI is built from the conversation id alone when there are no
    filters, and otherwise from the conversation id and a question mark
    followed by the escaped filters one directly after the other, with
    nothing between two filters. *)
Theorem GetSummaryOfBookmarks_query
    (E : Env) (B : BookmarksEnv) (c : symbl.Client) (conversationId : string)
    (filters : list string) (w : World) :
  let URI :=
    match filters with
    | [] => GetAsyncAPI E (SummariesOfBookmarksURI B) [conversationId]
    | _ :: _ =>
        GetAsyncAPI E (SummariesOfBookmarksURI B)
          [conversationId;
           ("?" ++ String.concat EmptyString (map (QueryEscape B) filters))%string]
    end in
  conversationId <> EmptyString ->
  NewRequestError E "GET" URI = None ->
  exists suffix,
    snd (async.GetSummaryOfBookmarks E B c conversationId filters w)
      = w ++ EvDo IntoResult (rest.Authorization (symbl.restClient c))
               {| http.Method := "GET"; http.URL := URI;
                  http.ReqBody := http.NoBody |}
             :: suffix.
Proof.
  intros URI Hc Hr. unfold async.GetSummaryOfBookmarks.
  apply String.eqb_neq in Hc. rewrite Hc.
  assert (HU : (if 0 <? Z.of_nat (List.length filters)
                then GetAsyncAPI E (SummariesOfBookmarksURI B)
                       [conversationId; async.queryString B filters]
                else GetAsyncAPI E (SummariesOfBookmarksURI B) [conversationId])
               = URI).
  { unfold URI, async.queryString. destruct filters as [|f fs].
    - reflexivity.
    - assert (Hpos : (0 <? Z.of_nat (List.length (f :: fs))) = true).
      { apply Z.ltb_lt. cbn [List.length]. lia. }
      rewrite Hpos, fold_left_append. reflexivity. }
  rewrite HU, Hr. apply checkTheStatus_request.
Qed.

(** X23, on the scripted server: two filters run into each other. *)
Lemma GetSummaryOfBookmarks_query_witness :
  let E := mock.env [] [] [(None, Some (json.Str "ok"))] in
  exists suffix,
    snd (async.GetSummaryOfBookmarks E mock.bookmarks mock.client "42"
           ["from"; "to"] [])
      = [] ++ EvDo IntoResult
                (rest.Authorization (symbl.restClient mock.client))
                {| http.Method := "GET";
                   http.URL :=
                     GetAsyncAPI E (SummariesOfBookmarksURI mock.bookmarks)
                       ["42"; "?fromto"];
                   http.ReqBody := http.NoBody |}
              :: suffix.
Proof.
  intros E.
  apply (GetSummaryOfBookmarks_query E mock.bookmarks mock.client "42"
           ["from"; "to"] []).
  - discriminate.
  - reflexivity.
Defined.

(** X24.  With non-empty ids, [GetBookmarkById] sends a GET to the by-id
    bookmark URI and [GetSummaryOfBookmark] a GET to the bookmark summary
    URI, both without body; with a request that passes the validator and
    that [json.Marshal] accepts, [CreateBookmark] sends a POST to the
    bookmarks URI of the conversation and [UpdateBookmark] a PUT to the
    by-id URI, both with the marshalled request as body. *)
Theorem bookmark_endpoints_requests
    (E : Env) (B : BookmarksEnv) (c : symbl.Client)
    (conversationId bookmarkId : string) (request : BookmarkRequest B)
    (jsonStr : json.Value) (w : World) :
  let sends (run : async.Reply E * World) (req : http.Request) :=
    exists suffix,
      snd run
        = w ++ EvDo IntoResult (rest.Authorization (symbl.restClient c)) req
               :: suffix in
  let byId :=
    GetManagementAPI E (BookmarksByIdURI B) [conversationId; bookmarkId] in
  let summary :=
    GetAsyncAPI E (BookmarkSummaryURI B) [conversationId; bookmarkId] in
  let all := GetManagementAPI E (BookmarksURI E) [conversationId] in
  conversationId <> EmptyString ->
  bookmarkId <> EmptyString ->
  (NewRequestError E "GET" byId = None ->
   sends (async.GetBookmarkById E B c conversationId bookmarkId w)
     {| http.Method := "GET"; http.URL := byId; http.ReqBody := http.NoBody |})
  /\ (NewRequestError E "GET" summary = None ->
      sends (async.GetSummaryOfBookmark E B c conversationId bookmarkId w)
        {| http.Method := "GET"; http.URL := summary;
           http.ReqBody := http.NoBody |})
  /\ (StructBookmarkRequest B request = None ->
      MarshalBookmarkRequest B request = inl jsonStr ->
      NewRequestError E "POST" all = None ->
      sends (async.CreateBookmark E B c conversationId request w)
        {| http.Method := "POST"; http.URL := all;
           http.ReqBody := http.JSONBody jsonStr |})
  /\ (StructBookmarkRequest B request = None ->
      MarshalBookmarkRequest B request = inl jsonStr ->
      NewRequestError E "PUT" byId = None ->
      sends (async.UpdateBookmark E B c conversationId bookmarkId request w)
        {| http.Method := "PUT"; http.URL := byId;
           http.ReqBody := http.JSONBody jsonStr |}).
Proof.
  intros sends byId summary all Hc Hb.
  apply String.eqb_neq in Hc, Hb. unfold sends.
  split; [|split; [|split]].
  - intros Hr. unfold async.GetBookmarkById. rewrite Hc, Hb. fold byId.
    rewrite Hr. apply checkTheStatus_request.
  - intros Hr. unfold async.GetSummaryOfBookmark. rewrite Hc, Hb. fold summary.
    rewrite Hr. apply checkTheStatus_request.
  - intros Hv Hm Hr. unfold async.CreateBookmark. rewrite Hv, Hc, Hm.
    fold all. rewrite Hr. apply checkTheStatus_request.
  - intros Hv Hm Hr. unfold async.UpdateBookmark. rewrite Hv, Hc, Hb, Hm.
    fold byId. rewrite Hr. apply checkTheStatus_request.
Qed.

(** X24, on the scripted server: a bookmark is updated. *)
Lemma bookmark_endpoints_requests_witness :
  let E := mock.env [] [] [(None, Some (json.Str "ok"))] in
  exists suffix,
    snd (async.UpdateBookmark E mock.bookmarks mock.client "42" "7"
           "the decision" [])
      = [] ++ EvDo IntoResult
                (rest.Authorization (symbl.restClient mock.client))
                {| http.Method := "PUT";
                   http.URL :=
                     GetManagementAPI E (BookmarksByIdURI mock.bookmarks)
                       ["42"; "7"];
                   http.ReqBody :=
                     http.JSONBody
                       (json.Obj [("description", json.Str "the decision")]) |}
              :: suffix.
Proof.
  intros E.
  destruct (bookmark_endpoints_requests E mock.bookmarks mock.client "42" "7"
              "the decision"
              (json.Obj [("description", json.Str "the decision")]) [])
    as (_ & _ & _ & Hupdate); try discriminate.
  apply Hupdate; reflexivity.
Defined.
